(** * Kizuna DX: the legacy adapter (backend/src/middleware/legacyAdapter.ts)

    A shallow embedding of the field resolvers, of [normalizeTask] and of
    [legacyAdapterMiddleware], with the fragment of the JavaScript run time
    they rely on: truthiness, [||], [String(v)], [toLowerCase], [trim],
    [split], property lookup on an object literal, [Date] and exceptions. *)

From stdpp Require Import gmap strings pretty list fin_maps.
From Stdlib Require Import ZArith Ascii String Lia.

Open Scope Z_scope.

Set Warnings "-register-all".

(** ** JavaScript values

    The values a legacy document can hold.  A number is an integer-valued
    Number that is exactly representable, of absolute value at most 2^53 (the
    store keeps status and priority codes as small integers), so that
    [String(n)] is its decimal notation; a string is a sequence of code units
    below 256, which is the range on which [toLowerCase] and [trim] are
    modelled exactly.  An object holds stored data, none of it callable.
    [VBuiltin k] is the member [k] of [Object.prototype], which an object
    literal inherits. *)

Inductive value : Type :=
| VUndefined
| VNull
| VBool (b : bool)
| VNumber (n : Z)
| VString (s : string)
| VArray (elems : list value)
| VObject (props : list (string * value))
| VBuiltin (name : string).

(** ToBoolean: [undefined], [null], [false], [0] and [""] are falsy. *)
Definition truthy (v : value) : bool :=
  match v with
  | VUndefined | VNull => false
  | VBool b => b
  | VNumber n => negb (n =? 0)
  | VString s => negb (String.eqb s "")
  | VArray _ | VObject _ | VBuiltin _ => true
  end.

(** [a || b] yields [a] itself when it is truthy, else [b]. *)
Definition js_or (a b : value) : value := if truthy a then a else b.

Infix "|||" := js_or (at level 50, left associativity).

Definition isArray (v : value) : bool :=
  match v with VArray _ => true | _ => false end.

(** ** Exceptions

    An expression completes normally with a value or abruptly with an
    exception. *)

Inductive exn : Type :=
| RangeError (msg : string)
| TypeError (msg : string).

Inductive completion (A : Type) : Type :=
| Normal (a : A)
| Throw (e : exn).

Arguments Normal {A} a.
Arguments Throw {A} e.

Definition and_then {A B : Type} (c : completion A) (k : A -> completion B)
  : completion B :=
  match c with
  | Normal a => k a
  | Throw e => Throw e
  end.

Notation "'let?' x := c 'in' k" := (and_then c (fun x => k))
  (at level 10, x name, c at level 100, k at level 200).

(** ** Conversion to a string

    [text_of v] is the string [v] converts to when the conversion completes.
    An array prints its elements joined by commas, with [null] and
    [undefined] elements printed as nothing. *)
Fixpoint text_of (v : value) : string :=
  match v with
  | VUndefined => "undefined"
  | VNull => "null"
  | VBool true => "true"
  | VBool false => "false"
  | VNumber n => pretty n
  | VString s => s
  | VArray l =>
      String.concat ","
        (List.map (fun e => match e with
                            | VUndefined | VNull => ""
                            | _ => text_of e
                            end) l)
  | VObject _ => "[object Object]"
  | VBuiltin k =>
      if String.eqb k "__proto__" then "[object Object]"
      else "function " +:+ (if String.eqb k "constructor" then "Object" else k)
           +:+ "() { [native code] }"
  end.

(** The conversion of an object to a primitive calls its [toString] and
    then its [valueOf].  A property [toString] of the object's own hides the
    inherited method and, being data, cannot be called; [valueOf], own or
    inherited, gives no primitive either; so the conversion throws.  An array
    converts its elements in turn. *)
Fixpoint unprintable (v : value) : bool :=
  match v with
  | VObject props => existsb (fun kv => String.eqb (fst kv) "toString") props
  | VArray l => existsb unprintable l
  | _ => false
  end.

Definition conversion_error : exn :=
  TypeError "Cannot convert object to primitive value".

(** [String(v)], and the conversion [new Date(v)] starts with. *)
Definition ToString (v : value) : completion string :=
  if unprintable v then Throw conversion_error else Normal (text_of v).

(** ** Strings *)

(** White space and line terminators removed by [trim] (code units < 256):
    TAB, LF, VT, FF, CR, SP and NBSP. *)
Definition is_white_space (c : ascii) : bool :=
  let n := N_of_ascii c in
  (((9 <=? n) && (n <=? 13)) || (n =? 32) || (n =? 160))%N.

Definition is_upper (c : ascii) : bool :=
  let n := N_of_ascii c in
  (((65 <=? n) && (n <=? 90)) ||
   ((192 <=? n) && (n <=? 222) && negb (n =? 215)))%N.

Definition lower_unit (c : ascii) : ascii :=
  if is_upper c then ascii_of_N (N_of_ascii c + 32) else c.

Fixpoint toLowerCase (s : string) : string :=
  match s with
  | EmptyString => EmptyString
  | String c s' => String (lower_unit c) (toLowerCase s')
  end.

Fixpoint trimStart (s : string) : string :=
  match s with
  | EmptyString => EmptyString
  | String c s' => if is_white_space c then trimStart s' else s
  end.

Fixpoint trimEnd (s : string) : string :=
  match s with
  | EmptyString => EmptyString
  | String c s' =>
      match trimEnd s' with
      | EmptyString => if is_white_space c then EmptyString else String c EmptyString
      | t => String c t
      end
  end.

Definition trim (s : string) : string := trimEnd (trimStart s).

(** [s.split(sep)] for a one-character separator: [("").split(",")] is
    [[""]], and [n] separators give [n + 1] pieces. *)
Fixpoint split (sep : ascii) (s : string) : list string :=
  match s with
  | EmptyString => [EmptyString]
  | String c s' =>
      if Ascii.eqb c sep then EmptyString :: split sep s'
      else match split sep s' with
           | h :: t => String c h :: t
           | [] => [String c EmptyString]
           end
  end.

(** [filter(Boolean)] on strings keeps the non-empty ones. *)
Definition non_empty (s : string) : bool := negb (String.eqb s "").

(** ** Object literals used as lookup tables

    [table[key]] on an object literal finds the literal's own property, and
    otherwise walks to [Object.prototype]. *)
Definition Object_prototype : list string :=
  [ "constructor"; "__proto__"; "__defineGetter__"; "__defineSetter__";
    "__lookupGetter__"; "__lookupSetter__"; "hasOwnProperty";
    "isPrototypeOf"; "propertyIsEnumerable"; "toLocaleString"; "toString";
    "valueOf" ].

Definition inherited (key : string) : bool :=
  existsb (String.eqb key) Object_prototype.

Definition Get (own : gmap string value) (key : string) : value :=
  match own !! key with
  | Some v => v
  | None => if inherited key then VBuiltin key else VUndefined
  end.

(** A field of a raw document: [raw.f] is [undefined] when [f] is not stored.
    None of the field names the adapter reads is a member of a prototype. *)
Definition field (raw : gmap string value) (f : string) : value :=
  default VUndefined (raw !! f).

(** ** The wall clock and the evaluation monad

    A computation may read the wall clock and may complete abruptly.  The
    world holds the readings the clock gives and how many were taken. *)

Record World : Type := { clock : nat -> Z; reads : nat }.

Definition tick (w : World) : World :=
  {| clock := clock w; reads := S (reads w) |}.

Definition JS (A : Type) : Type := World -> completion A * World.

Definition ret {A : Type} (a : A) : JS A := fun w => (Normal a, w).

Definition throw {A : Type} (e : exn) : JS A := fun w => (Throw e, w).

Definition bind {A B : Type} (m : JS A) (k : A -> JS B) : JS B :=
  fun w =>
    match m w with
    | (Normal a, w') => k a w'
    | (Throw e, w') => (Throw e, w')
    end.

(** [try { m } catch { h }] *)
Definition try_catch {A : Type} (m : JS A) (h : exn -> JS A) : JS A :=
  fun w =>
    match m w with
    | (Normal a, w') => (Normal a, w')
    | (Throw e, w') => h e w'
    end.

(** An expression without effects, inside a computation. *)
Definition lift {A : Type} (c : completion A) : JS A := fun w => (c, w).

Notation "'do' x <- m ; k" := (bind m (fun x => k))
  (at level 10, x name, m at level 100, k at level 200).

(** ** Dates

    A [Date] is its time value in milliseconds since the epoch, [None] for an
    invalid date.  What strings [Date.parse] accepts beyond the ISO format is
    left to the engine, so the parser and the ISO printer are an interface. *)

Class DateEngine : Type := {
  Date_parse : string -> option Z;
  Date_toISO : Z -> string
}.

Definition time_clip (n : Z) : option Z :=
  if Z.abs n <=? 8640000000000000 then Some n else None.

Section Adapter.

Context {engine : DateEngine}.

(** [new Date(v)]: a string, or an object through its primitive string, is
    parsed; anything else is taken as a number of milliseconds. *)
Definition new_Date (v : value) : completion (option Z) :=
  match v with
  | VUndefined => Normal None
  | VNull => Normal (Some 0)
  | VBool b => Normal (Some (if b then 1 else 0))
  | VNumber n => Normal (time_clip n)
  | _ => let? s := ToString v in Normal (Date_parse s)
  end.

(** [d.toISOString()] throws a RangeError on an invalid date. *)
Definition toISOString (d : option Z) : JS string :=
  match d with
  | Some t => ret (Date_toISO t)
  | None => throw (RangeError "Invalid time value")
  end.

(** [new Date()]: the current time, always a valid time value. *)
Definition Date_now : JS (option Z) :=
  fun w => (Normal (Some (clock w (reads w))), tick w).

(** ** The field resolvers *)

Definition resolveTitle (raw : gmap string value) : value :=
  field raw "title" ||| field raw "name" ||| field raw "task_name"
  ||| VString "Untitled Task".

Definition resolveDescription (raw : gmap string value) : value :=
  field raw "desc" ||| field raw "description" ||| VString "".

Definition statusMap : gmap string value :=
  list_to_map
    [ ("todo", VString "TODO"); ("backlog", VString "TODO");
      ("0", VString "TODO"); ("open", VString "TODO");
      ("in_progress", VString "IN_PROGRESS");
      ("in progress", VString "IN_PROGRESS");
      ("active", VString "IN_PROGRESS"); ("wip", VString "IN_PROGRESS");
      ("1", VString "IN_PROGRESS"); ("doing", VString "IN_PROGRESS");
      ("review", VString "REVIEW"); ("pending", VString "REVIEW");
      ("2", VString "REVIEW"); ("in_review", VString "REVIEW");
      ("done", VString "DONE"); ("completed", VString "DONE");
      ("3", VString "DONE"); ("closed", VString "DONE");
      ("finished", VString "DONE") ].

Definition resolveStatus (raw : gmap string value) : completion value :=
  let? text := ToString (field raw "status" ||| VString "") in
  let s := trim (toLowerCase text) in
  Normal (Get statusMap s ||| VString "TODO").

Definition priorityMap : gmap string value :=
  list_to_map
    [ ("low", VString "LOW"); ("minor", VString "LOW"); ("1", VString "LOW");
      ("medium", VString "MEDIUM"); ("mid", VString "MEDIUM");
      ("normal", VString "MEDIUM"); ("2", VString "MEDIUM");
      ("high", VString "HIGH"); ("major", VString "HIGH");
      ("3", VString "HIGH");
      ("critical", VString "CRITICAL"); ("blocker", VString "CRITICAL");
      ("4", VString "CRITICAL"); ("urgent", VString "CRITICAL") ].

Definition resolvePriority (raw : gmap string value) : completion value :=
  let? text := ToString (field raw "priority" ||| VString "") in
  let p := trim (toLowerCase text) in
  Normal (Get priorityMap p ||| VString "MEDIUM").

Definition resolveAssignee (raw : gmap string value) : value :=
  field raw "assignee" ||| field raw "owner" ||| field raw "member"
  ||| VString "Unassigned".

Definition raw_date (raw : gmap string value) : value :=
  field raw "due" ||| field raw "due_date" ||| field raw "deadline" ||| VNull.

Definition resolveDueDate (raw : gmap string value) : JS value :=
  if negb (truthy (raw_date raw)) then ret VNull
  else
    try_catch
      (do date <- lift (new_Date (raw_date raw));
       do iso <- toISOString date;
       ret (VString iso))
      (fun _ => ret (raw_date raw)).

Definition elements (v : value) : list value :=
  match v with VArray l => l | _ => [] end.

Definition resolveTags (raw : gmap string value) : completion (list value) :=
  if negb (truthy (field raw "tags")) then Normal []
  else if isArray (field raw "tags") then Normal (elements (field raw "tags"))
  else
    let? text := ToString (field raw "tags") in
    Normal
      (List.map VString
         (List.filter non_empty (List.map trim (split "," text)))).

(** ** The normalizer *)

Record NormalizedTask : Type := {
  id : string;
  title : value;
  description : value;
  status : value;
  priority : value;
  assignee : value;
  dueDate : value;
  tags : list value;
  normalizedAt : string
}.

Definition normalizeTask (raw : gmap string value) : JS NormalizedTask :=
  do id_text <- lift (ToString (field raw "_id"));
  do status_value <- lift (resolveStatus raw);
  do priority_value <- lift (resolvePriority raw);
  do due <- resolveDueDate raw;
  do tag_list <- lift (resolveTags raw);
  do now <- Date_now;
  do stamp <- toISOString now;
  ret {| id := id_text;
         title := resolveTitle raw;
         description := resolveDescription raw;
         status := status_value;
         priority := priority_value;
         assignee := resolveAssignee raw;
         dueDate := due;
         tags := tag_list;
         normalizedAt := stamp |}.

(** ** The middleware

    [rawTasks.map(normalizeTask)] calls [normalizeTask] on each element in
    turn; an exception escaping it is handed to [next]. *)

Fixpoint Array_map {A B : Type} (f : A -> JS B) (l : list A) : JS (list B) :=
  match l with
  | [] => ret []
  | x :: l' => do y <- f x; do ys <- Array_map f l'; ret (y :: ys)
  end.

Record Locals : Type := {
  rawTasks : option (list (gmap string value));
  tasks : option (list NormalizedTask)
}.

Inductive Next : Type :=
| next
| next_err (e : exn).

Definition legacyAdapterMiddleware (locals : Locals)
  : World -> Locals * Next * World :=
  fun w =>
    match rawTasks locals with
    | Some raws =>
        match Array_map normalizeTask raws w with
        | (Normal out, w') =>
            ({| rawTasks := rawTasks locals; tasks := Some out |}, next, w')
        | (Throw e, w') => (locals, next_err e, w')
        end
    | None => (locals, next, w)
    end.

End Adapter.

(** ** A date engine for the ECMAScript date-only form

    [YYYY-MM-DD] is read as midnight UTC of that day; every other string is an
    invalid date in this engine.  [toISOString] prints
    [YYYY-MM-DDTHH:mm:ss.sssZ], with a signed six-digit year outside
    0..9999. *)

Module IsoDate.

Definition ms_per_day : Z := 86400000.

Definition digit (c : ascii) : option Z :=
  let n := Z.of_N (N_of_ascii c) in
  if (48 <=? n) && (n <=? 57) then Some (n - 48) else None.

Definition is_leap (y : Z) : bool :=
  ((y mod 4 =? 0) && negb (y mod 100 =? 0)) || (y mod 400 =? 0).

Definition days_in_month (y m : Z) : Z :=
  if m =? 2 then (if is_leap y then 29 else 28)
  else if (m =? 4) || (m =? 6) || (m =? 9) || (m =? 11) then 30
  else 31.

Definition days_from_civil (y m d : Z) : Z :=
  let y' := if m <=? 2 then y - 1 else y in
  let era := y' / 400 in
  let yoe := y' - era * 400 in
  let doy := (153 * (if 2 <? m then m - 3 else m + 9) + 2) / 5 + d - 1 in
  let doe := yoe * 365 + yoe / 4 - yoe / 100 + doy in
  era * 146097 + doe - 719468.

Definition civil_from_days (z0 : Z) : Z * Z * Z :=
  let z := z0 + 719468 in
  let era := z / 146097 in
  let doe := z - era * 146097 in
  let yoe := (doe - doe / 1460 + doe / 36524 - doe / 146096) / 365 in
  let doy := doe - (365 * yoe + yoe / 4 - yoe / 100) in
  let mp := (5 * doy + 2) / 153 in
  let d := doy - (153 * mp + 2) / 5 + 1 in
  let m := if mp <? 10 then mp + 3 else mp - 9 in
  let y := yoe + era * 400 + (if m <=? 2 then 1 else 0) in
  (y, m, d).

Definition number2 (a b : ascii) : option Z :=
  match digit a, digit b with
  | Some x, Some y => Some (10 * x + y)
  | _, _ => None
  end.

Definition parse (s : string) : option Z :=
  match list_ascii_of_string s with
  | [y1; y2; y3; y4; h1; m1; m2; h2; d1; d2] =>
      match number2 y1 y2, number2 y3 y4, number2 m1 m2, number2 d1 d2 with
      | Some yh, Some yl, Some m, Some d =>
          let y := 100 * yh + yl in
          if Ascii.eqb h1 "-" && Ascii.eqb h2 "-"
             && (1 <=? m) && (m <=? 12) && (1 <=? d) && (d <=? days_in_month y m)
          then Some (days_from_civil y m d * ms_per_day)
          else None
      | _, _, _, _ => None
      end
  | _ => None
  end.

Fixpoint zeros (k : nat) : string :=
  match k with O => "" | S k' => String "0" (zeros k') end.

Definition pad (width : nat) (n : Z) : string :=
  let s := pretty n in
  zeros (width - String.length s) +:+ s.

Definition toISO (t : Z) : string :=
  let '(y, m, d) := civil_from_days (t / ms_per_day) in
  let r := t mod ms_per_day in
  let year :=
    if (0 <=? y) && (y <=? 9999) then pad 4 y
    else (if y <? 0 then "-" else "+") +:+ pad 6 (Z.abs y) in
  year +:+ "-" +:+ pad 2 m +:+ "-" +:+ pad 2 d +:+ "T"
  +:+ pad 2 (r / 3600000) +:+ ":" +:+ pad 2 (r / 60000 mod 60) +:+ ":"
  +:+ pad 2 (r / 1000 mod 60) +:+ "." +:+ pad 3 (r mod 1000) +:+ "Z".

#[export] Instance engine : DateEngine :=
  {| Date_parse := parse; Date_toISO := toISO |}.

End IsoDate.

(** ** Sample documents *)

Definition empty_doc : gmap string value := ∅.

Definition sample_world : World :=
  {| clock := fun n => 1713175200000 + Z.of_nat n; reads := 0 |}.

Definition doc (fields : list (string * value)) : gmap string value :=
  list_to_map fields.

(** The enumerations: the literals of [TaskStatus] and [TaskPriority] in
    the code (types.ts), and the status names the design document gives. *)
Definition TaskStatus : list value :=
  [VString "TODO"; VString "IN_PROGRESS"; VString "REVIEW"; VString "DONE"].

Definition TaskPriority : list value :=
  [VString "LOW"; VString "MEDIUM"; VString "HIGH"; VString "CRITICAL"].

Definition documented_status : list value :=
  [VString "BACKLOG"; VString "IN_PROGRESS"; VString "IN_REVIEW";
   VString "DONE"].

(** Every code unit of [s] satisfies [p]. *)
Fixpoint all_units (p : ascii -> bool) (s : string) : bool :=
  match s with
  | EmptyString => true
  | String c s' => p c && all_units p s'
  end.

(** ASCII upper-casing of one unit, and a word re-cased position by
    position: [recase mask w] upper-cases the units of [w] flagged in
    [mask]. *)
Definition upper_unit (c : ascii) : ascii :=
  let n := N_of_ascii c in
  if ((97 <=? n) && (n <=? 122))%N then ascii_of_N (n - 32) else c.

Fixpoint recase (mask : list bool) (w : string) : string :=
  match w, mask with
  | String c w', true :: mask' => String (upper_unit c) (recase mask' w')
  | String c w', false :: mask' => String c (recase mask' w')
  | _, _ => w
  end.

(** Two normalized tasks that agree on everything but [normalizedAt]. *)
Definition same_fields (a b : NormalizedTask) : Prop :=
  id a = id b /\ title a = title b /\ description a = description b /\
  status a = status b /\ priority a = priority b /\
  assignee a = assignee b /\ dueDate a = dueDate b /\ tags a = tags b.

(** Two runs that end alike: both return, with records that agree on
    everything but [normalizedAt], or both raise the same exception. *)
Definition same_outcome (a b : completion NormalizedTask) : Prop :=
  match a, b with
  | Normal x, Normal y => same_fields x y
  | Throw e1, Throw e2 => e1 = e2
  | _, _ => False
  end.

(** A string without white space at either end. *)
Definition trimmed (t : string) : Prop :=
  forall c u,
    (t = String c u -> is_white_space c = false) /\
    (t = u +:+ String c EmptyString -> is_white_space c = false).

(** The fields the adapter reads as aliases, codes or tags. *)
Definition alias_fields : list string :=
  [ "title"; "name"; "task_name"; "desc"; "description"; "status";
    "priority"; "assignee"; "owner"; "member"; "due"; "due_date";
    "deadline"; "tags" ].

(** Two values that [||] and [!] cannot tell apart: equal, or both falsy. *)
Definition alike (a b : value) : Prop :=
  a = b \/ (truthy a = false /\ truthy b = false).

(** The world after [n] more readings of the clock. *)
Definition later (n : nat) (w : World) : World := Nat.iter n tick w.

(** ** What the resolvers return when they return

    The same computations without the conversions that can throw, and the
    condition under which none does. *)

Definition status_key (raw : gmap string value) : string :=
  trim (toLowerCase (text_of (field raw "status" ||| VString ""))).

Definition status_value (raw : gmap string value) : value :=
  Get statusMap (status_key raw) ||| VString "TODO".

Definition priority_key (raw : gmap string value) : string :=
  trim (toLowerCase (text_of (field raw "priority" ||| VString ""))).

Definition priority_value (raw : gmap string value) : value :=
  Get priorityMap (priority_key raw) ||| VString "MEDIUM".

Definition tags_value (raw : gmap string value) : list value :=
  if negb (truthy (field raw "tags")) then []
  else if isArray (field raw "tags") then elements (field raw "tags")
  else
    List.map VString
      (List.filter non_empty
         (List.map trim (split "," (text_of (field raw "tags"))))).

(** The tags are converted to a string only when they are truthy and not an
    array. *)
Definition tags_unprintable (raw : gmap string value) : bool :=
  truthy (field raw "tags") && negb (isArray (field raw "tags"))
  && unprintable (field raw "tags").

(** None of the four conversions of [normalizeTask] throws: [String(_id)],
    [String(status || "")], [String(priority || "")] and [String(tags)]. *)
Definition printable (raw : gmap string value) : bool :=
  negb (unprintable (field raw "_id"))
  && negb (unprintable (field raw "status" ||| VString ""))
  && negb (unprintable (field raw "priority" ||| VString ""))
  && negb (tags_unprintable raw).

Section Expected.

Context {engine : DateEngine}.

(** The time value of [new Date(v)] when the conversion completes. *)
Definition time_value (v : value) : option Z :=
  match v with
  | VUndefined => None
  | VNull => Some 0
  | VBool b => Some (if b then 1 else 0)
  | VNumber n => time_clip n
  | _ => Date_parse (text_of v)
  end.

(** What the due date comes to: the first alias holding a truthy value,
    printed in ISO form when it is a valid date and passed through
    otherwise. *)
Definition expected_dueDate (raw : gmap string value) : value :=
  match List.find truthy
          [field raw "due"; field raw "due_date"; field raw "deadline"] with
  | None => VNull
  | Some x =>
      if unprintable x then x
      else match time_value x with
           | Some t => VString (Date_toISO t)
           | None => x
           end
  end.

(** The record [normalizeTask] assembles when the clock reads [now]. *)
Definition normalized (raw : gmap string value) (now : Z) : NormalizedTask :=
  {| id := text_of (field raw "_id");
     title := resolveTitle raw;
     description := resolveDescription raw;
     status := status_value raw;
     priority := priority_value raw;
     assignee := resolveAssignee raw;
     dueDate := expected_dueDate raw;
     tags := tags_value raw;
     normalizedAt := Date_toISO now |}.


End Expected.

(** A word that survives [trim]: not empty, no white space at either end. *)
Definition clean_word (w : string) : bool :=
  match w with
  | EmptyString => false
  | String c _ => negb (is_white_space c) && String.eqb (trimEnd w) w
  end.

(** A tag that can be written in a comma-joined string and read back. *)
Definition plain_tag (t : string) : Prop :=
  t <> "" /\ trim t = t /\
  all_units (fun c => negb (Ascii.eqb c ",")) t = true.

(** ** The task routes (backend/src/routes/tasks.ts)

    The data the handlers hand to the adapter.  The store, the audit log and
    the HTTP layer are the handlers' collaborators and are not modelled. *)

(** [req.body] of [POST /api/tasks] once [createTaskSchema] has accepted it
    and filled in its defaults. *)
Record CreateTaskBody : Type := {
  body_title : string;
  body_description : string;
  body_status : string;
  body_priority : string;
  body_assignee : string;
  body_dueDate : value;
  body_tags : list string
}.

(** The fields [POST /api/tasks] writes: the object handed to
    [LegacyTask.create]. *)
Definition created_fields (body : CreateTaskBody) : gmap string value :=
  doc [ ("title", VString (body_title body));
        ("desc", VString (body_description body));
        ("status", VString (toLowerCase (body_status body)));
        ("priority", VString (toLowerCase (body_priority body)));
        ("assignee", VString (body_assignee body));
        ("due_date", body_dueDate body);
        ("tags", VArray (List.map VString (body_tags body))) ].

(** [PATCH /api/tasks/:id]: [task.status = req.body.status.toLowerCase()]. *)
Definition patched (task : gmap string value) (body_status : string)
  : gmap string value :=
  <["status" := VString (toLowerCase body_status)]> task.

(** The last handler of [GET /api/tasks]: the tasks the middleware stored,
    with their count; reading [length] of a missing [tasks] throws. *)
Record TaskList : Type := { data : list NormalizedTask; total : nat }.

Definition list_tasks (locals : Locals) : completion TaskList :=
  match tasks locals with
  | Some ts => Normal {| data := ts; total := List.length ts |}
  | None =>
      Throw (TypeError "Cannot read properties of undefined (reading 'length')")
  end.

(** [GET /api/tasks] once the documents are fetched: the middleware runs on
    fresh locals holding them; after [next()] the last handler answers, and
    after [next(err)] it is skipped and the error goes to the error
    handler. *)
Definition get_tasks {engine : DateEngine} (raws : list (gmap string value))
  : JS TaskList :=
  fun w =>
    match legacyAdapterMiddleware {| rawTasks := Some raws; tasks := None |} w
    with
    | (locals, next, w') => (list_tasks locals, w')
    | (_, next_err e, w') => (Throw e, w')
    end.

(** ** Errors (backend/src/middleware/errorHandler.ts) *)

Record AppError : Type := {
  message : string;
  statusCode : value;
  code : value;
  details : value;
  stack : value
}.

(** [createError(statusCode, message, details)]; [trace] is the stack the
    engine records in [new Error(message)]. *)
Definition createError (trace : string) (status_code : Z) (msg : string)
    (extra : value) : AppError :=
  {| message := msg;
     statusCode := VNumber status_code;
     code := VUndefined;
     details := extra;
     stack := VString trace |}.

Record Request : Type := { method : string; path : string }.

(** What [console.error] is given. *)
Inductive LogEntry : Type :=
| LogObject (prefix : string) (err : AppError)
| LogText (line : string).

Record ErrorReply : Type := {
  reply_status : value;
  reply_body : list (string * value);
  reply_log : LogEntry
}.

(** [globalErrorHandler(err, req, res, _next)] under [process.env.NODE_ENV]:
    the status given to [res.status], the JSON body in key order, and the
    line logged. *)
Definition globalErrorHandler (NODE_ENV : option string) (err : AppError)
    (req : Request) : ErrorReply :=
  let status_code := statusCode err ||| code err ||| VNumber 500 in
  let msg := VString (message err) ||| VString "Internal Server Error" in
  let development :=
    match NODE_ENV with
    | Some env => String.eqb env "development"
    | None => false
    end in
  {| reply_status := status_code;
     reply_body :=
       [ ("success", VBool false); ("error", msg); ("code", status_code) ]
       ++ (if development && truthy (details err)
           then [("details", details err)] else [])
       ++ (if development && truthy (stack err)
           then [("stack", stack err)] else []);
     reply_log :=
       if development
       then LogObject ("[ERROR] " +:+ method req +:+ " " +:+ path req +:+ ":") err
       else LogText ("[ERROR] " +:+ method req +:+ " " +:+ path req +:+ ": "
                     +:+ text_of msg) |}.

(** The value of a key of a JSON body. *)
Definition body_get (body : list (string * value)) (key : string) : value :=
  match List.find (fun kv => String.eqb (fst kv) key) body with
  | Some kv => snd kv
  | None => VUndefined
  end.

(** ** The board (frontend/src/app/kanban/page.tsx)

    The board holds the normalized tasks it fetched, decoded from JSON. *)

Definition COLUMNS : list string := ["TODO"; "IN_PROGRESS"; "REVIEW"; "DONE"].

(** [a === b]: primitives are compared by value; two arrays or objects
    decoded from JSON are never the same object. *)
Definition strict_equal (a b : value) : bool :=
  match a, b with
  | VUndefined, VUndefined => true
  | VNull, VNull => true
  | VBool x, VBool y => Bool.eqb x y
  | VNumber x, VNumber y => (x =? y)%Z
  | VString x, VString y => String.eqb x y
  | _, _ => false
  end.

Definition tasksByCol (tasks : list NormalizedTask) (s : string)
  : list NormalizedTask :=
  List.filter (fun t => strict_equal (status t) (VString s)) tasks.

(** [{ ...t, status: target }] *)
Definition with_status (t : NormalizedTask) (target : value) : NormalizedTask :=
  {| id := id t;
     title := title t;
     description := description t;
     status := target;
     priority := priority t;
     assignee := assignee t;
     dueDate := dueDate t;
     tags := tags t;
     normalizedAt := normalizedAt t |}.

(** [v ?? null] *)
Definition or_null (v : value) : value :=
  match v with
  | VUndefined | VNull => VNull
  | _ => v
  end.

(** The updater [handleDragEnd] hands to [setTasks]:
    [p => p.map(t => t.id === active.id ? { ...t, status: target } : t)]. *)
Definition move_card (active : string) (target : value)
    (p : list NormalizedTask) : list NormalizedTask :=
  List.map (fun t => if String.eqb (id t) active
                     then with_status t target else t) p.

(** [handleDragEnd({ active, over })] up to its [await], on a board whose
    state is still the [tasks] the handler closed over: the tasks it sets
    and the [updateTaskStatus(id, target)] request it sends, if any. *)
Definition handleDragEnd (tasks : list NormalizedTask) (active : string)
    (over : option string)
  : list NormalizedTask * option (string * value) :=
  match over with
  | None => (tasks, None)
  | Some over_id =>
      if String.eqb active over_id then (tasks, None)
      else
        let target :=
          if existsb (String.eqb over_id) COLUMNS then VString over_id
          else
            or_null
              match List.find (fun t => String.eqb (id t) over_id) tasks with
              | Some t => status t
              | None => VUndefined
              end in
        if negb (truthy target) then (tasks, None)
        else
          match List.find (fun t => String.eqb (id t) active) tasks with
          | None => (tasks, None)
          | Some dragged =>
              if strict_equal (status dragged) target then (tasks, None)
              else (move_card active target tasks, Some (active, target))
          end
  end.

(** How the request ended: [updateTaskStatus] resolved, or it was rejected
    and [fetchTasks] ran, where [getTasks] either came back with
    [r.success] and [r.data] or did not. *)
Inductive RequestOutcome : Type :=
| Accepted
| Rejected (fetched : option (list NormalizedTask)).

(** The board once [handleDragEnd] has settled.  The handler decides by the
    [tasks] it closed over; the updater is applied to [latest], the state
    at the time; after a rejected request, [fetchTasks] replaces the board by
    the server's tasks when it gets them. *)
Definition handleDragEnd_settled (tasks latest : list NormalizedTask)
    (active : string) (over : option string) (outcome : RequestOutcome)
  : list NormalizedTask :=
  match snd (handleDragEnd tasks active over) with
  | None => latest
  | Some (i, target) =>
      match outcome with
      | Accepted => move_card i target latest
      | Rejected (Some server_tasks) => server_tasks
      | Rejected None => move_card i target latest
      end
  end.

(** * Facts about strings *)

Section StringFacts.

Lemma ascii_cases (P : ascii -> Prop) :
  (forall b0 b1 b2 b3 b4 b5 b6 b7, P (Ascii b0 b1 b2 b3 b4 b5 b6 b7)) ->
  forall c, P c.
Proof. intros H [b0 b1 b2 b3 b4 b5 b6 b7]. apply H. Qed.

Ltac by_units :=
  apply ascii_cases;
  intros [|] [|] [|] [|] [|] [|] [|] [|]; vm_compute; auto; discriminate.

Lemma lower_unit_not_upper : forall c, is_upper (lower_unit c) = false.
Proof. by_units. Qed.

Lemma lower_upper_unit : forall c, lower_unit (upper_unit c) = lower_unit c.
Proof. by_units. Qed.

Lemma white_space_lower : forall c,
  is_white_space (lower_unit c) = is_white_space c.
Proof. by_units. Qed.

Lemma toLowerCase_app a b :
  toLowerCase (a +:+ b) = toLowerCase a +:+ toLowerCase b.
Proof. induction a as [|c a IH]; simpl; [reflexivity | now rewrite IH]. Qed.

Lemma toLowerCase_recase mask : forall w,
  toLowerCase (recase mask w) = toLowerCase w.
Proof.
  induction mask as [|[|] mask IH]; intros [|c w]; simpl; auto.
  - now rewrite lower_upper_unit, IH.
  - now rewrite IH.
Qed.

Lemma toLowerCase_white ws :
  all_units is_white_space (toLowerCase ws) = all_units is_white_space ws.
Proof.
  induction ws as [|c ws IH]; simpl; [reflexivity|].
  now rewrite white_space_lower, IH.
Qed.

Lemma toLowerCase_lower s :
  all_units (fun c => negb (is_upper c)) (toLowerCase s) = true.
Proof.
  induction s as [|c s IH]; simpl; [reflexivity|].
  now rewrite lower_unit_not_upper, IH.
Qed.

Lemma trimStart_white ws s :
  all_units is_white_space ws = true -> trimStart (ws +:+ s) = trimStart s.
Proof.
  induction ws as [|c ws IH]; simpl; [reflexivity|].
  intros H. apply andb_true_iff in H as [Hc Hws]. rewrite Hc. auto.
Qed.

Lemma trimEnd_all_white ws :
  all_units is_white_space ws = true -> trimEnd ws = EmptyString.
Proof.
  induction ws as [|c ws IH]; simpl; [reflexivity|].
  intros H. apply andb_true_iff in H as [Hc Hws].
  now rewrite (IH Hws), Hc.
Qed.

Lemma trimEnd_white s ws :
  all_units is_white_space ws = true -> trimEnd (s +:+ ws) = trimEnd s.
Proof.
  intros H. induction s as [|c s IH]; simpl.
  - now apply trimEnd_all_white.
  - now rewrite IH.
Qed.

Lemma trimEnd_cons c s :
  is_white_space c = false -> trimEnd (String c s) = String c (trimEnd s).
Proof. intros H. simpl. destruct (trimEnd s); [now rewrite H | reflexivity]. Qed.

Lemma trimEnd_idem s : trimEnd (trimEnd s) = trimEnd s.
Proof.
  induction s as [|c s IH]; simpl; [reflexivity|].
  destruct (trimEnd s) as [|d t] eqn:E.
  - destruct (is_white_space c) eqn:Hc; simpl; [reflexivity | now rewrite Hc].
  - change (trimEnd (String c (String d t)) = String c (String d t)).
    simpl. simpl in IH. now rewrite IH.
Qed.

Lemma trimStart_head s c t :
  trimStart s = String c t -> is_white_space c = false.
Proof.
  induction s as [|a s IH]; simpl; [discriminate|].
  destruct (is_white_space a) eqn:Ha; [exact IH|].
  intros [= <- _]. exact Ha.
Qed.

Lemma trimStart_fixed c s :
  is_white_space c = false -> trimStart (String c s) = String c s.
Proof. intros H. simpl. now rewrite H. Qed.

Lemma trim_idem s : trim (trim s) = trim s.
Proof.
  unfold trim. destruct (trimStart s) as [|c t] eqn:E; [reflexivity|].
  pose proof (trimStart_head _ _ _ E) as Hc.
  rewrite (trimEnd_cons _ _ Hc), (trimStart_fixed _ _ Hc), (trimEnd_cons _ _ Hc).
  now rewrite trimEnd_idem.
Qed.

Lemma trimEnd_last s : forall u c,
  trimEnd s = u +:+ String c EmptyString -> is_white_space c = false.
Proof.
  induction s as [|a s IH]; intros u c; simpl.
  - destruct u; discriminate.
  - destruct (trimEnd s) as [|d t] eqn:E.
    + destruct (is_white_space a) eqn:Ha.
      * destruct u; discriminate.
      * destruct u as [|x u]; simpl.
        -- intros [= <-]. exact Ha.
        -- intros [= _ H]. destruct u; discriminate.
    + destruct u as [|x u]; simpl.
      * discriminate.
      * intros [= _ H]. apply (IH u c). exact H.
Qed.

Lemma trim_trimmed s : trimmed (trim s).
Proof.
  intros c u. split; intros H.
  - unfold trim in H. destruct (trimStart s) as [|a t] eqn:E; [discriminate|].
    pose proof (trimStart_head _ _ _ E) as Ha.
    rewrite (trimEnd_cons _ _ Ha) in H. now injection H as <- _.
  - exact (trimEnd_last _ _ _ H).
Qed.

Lemma all_units_trimStart p s :
  all_units p s = true -> all_units p (trimStart s) = true.
Proof.
  induction s as [|c s IH]; simpl; [auto|].
  intros H. destruct (is_white_space c); [|exact H].
  apply andb_true_iff in H as [_ H]. auto.
Qed.

Lemma all_units_trimEnd p s :
  all_units p s = true -> all_units p (trimEnd s) = true.
Proof.
  induction s as [|c s IH]; simpl; [auto|].
  intros H. apply andb_true_iff in H as [Hc H]. specialize (IH H).
  destruct (trimEnd s) as [|d t].
  - destruct (is_white_space c); simpl; [reflexivity | now rewrite Hc].
  - change (all_units p (String c (String d t)) = true).
    simpl. simpl in IH. now rewrite Hc, IH.
Qed.

Lemma all_units_trim p s : all_units p s = true -> all_units p (trim s) = true.
Proof. intros H. now apply all_units_trimEnd, all_units_trimStart. Qed.

Lemma split_not_nil sep s : split sep s <> [].
Proof.
  destruct s as [|c s]; simpl; [discriminate|].
  destruct (Ascii.eqb c sep); [discriminate|].
  destruct (split sep s); discriminate.
Qed.

(** [split] cuts at every separator and nowhere else. *)
Lemma split_join sep s :
  String.concat (String sep EmptyString) (split sep s) = s.
Proof.
  induction s as [|c s IH]; simpl; [reflexivity|].
  pose proof (split_not_nil sep s) as Hne.
  destruct (split sep s) as [|h t] eqn:Es; [congruence|].
  destruct (Ascii.eqb c sep) eqn:E.
  - apply Ascii.eqb_eq in E as ->. simpl in *. now rewrite IH.
  - destruct t; simpl in *; now rewrite <- IH.
Qed.

Lemma split_no_sep sep s :
  Forall (fun piece => all_units (fun c => negb (Ascii.eqb c sep)) piece = true)
         (split sep s).
Proof.
  induction s as [|c s IH]; simpl.
  - repeat constructor.
  - destruct (Ascii.eqb c sep) eqn:E.
    + constructor; [reflexivity | exact IH].
    + destruct (split sep s) as [|h t]; inversion IH; subst.
      * repeat constructor. simpl. now rewrite E.
      * constructor; [simpl; now rewrite E | assumption].
Qed.

End StringFacts.

(** * Facts about the run-time fragment *)

Section RuntimeFacts.

Lemma js_or_truthy a b : truthy a = true -> a ||| b = a.
Proof. unfold js_or. now intros ->. Qed.

Lemma js_or_falsy a b : truthy a = false -> a ||| b = b.
Proof. unfold js_or. now intros ->. Qed.

(** [a || b || c] picks the first truthy operand, whatever the grouping. *)
Lemma js_or_find a b c d :
  a ||| b ||| c ||| d = default d (List.find truthy [a; b; c]).
Proof.
  simpl. destruct (truthy a) eqn:Ha.
  { now rewrite !(js_or_truthy a) by assumption. }
  rewrite (js_or_falsy a b Ha). destruct (truthy b) eqn:Hb.
  { now rewrite !(js_or_truthy b) by assumption. }
  rewrite (js_or_falsy b c Hb). destruct (truthy c) eqn:Hc.
  - now rewrite js_or_truthy.
  - now rewrite js_or_falsy.
Qed.

Lemma truthy_VString s : truthy (VString s) = true <-> s <> "".
Proof.
  simpl. destruct (String.eqb s "") eqn:E.
  - apply String.eqb_eq in E. split; [discriminate | congruence].
  - apply String.eqb_neq in E. split; auto.
Qed.

Lemma ToString_or_empty s : text_of (VString s ||| VString "") = s.
Proof.
  unfold js_or. simpl. destruct (String.eqb s "") eqn:E; simpl; [|reflexivity].
  now apply String.eqb_eq in E.
Qed.

Lemma field_insert_eq (raw : gmap string value) f v :
  field (<[f := v]> raw) f = v.
Proof. unfold field. now rewrite lookup_insert_eq. Qed.

Lemma field_insert_ne (raw : gmap string value) f g v :
  f <> g -> field (<[f := v]> raw) g = field raw g.
Proof. intros H. unfold field. now rewrite lookup_insert_ne. Qed.

Lemma field_delete_eq (raw : gmap string value) f :
  field (delete f raw) f = VUndefined.
Proof. unfold field. now rewrite lookup_delete_eq. Qed.

Lemma field_delete_ne (raw : gmap string value) f g :
  f <> g -> field (delete f raw) g = field raw g.
Proof. intros H. unfold field. now rewrite lookup_delete_ne. Qed.

Lemma field_absent (raw : gmap string value) f :
  raw !! f = None -> field raw f = VUndefined.
Proof. unfold field. now intros ->. Qed.

Lemma alike_refl a : alike a a.
Proof. now left. Qed.

Lemma alike_truthy a b : alike a b -> truthy a = truthy b.
Proof. intros [-> | [-> ->]]; reflexivity. Qed.

Lemma js_or_alike a a' b b' : alike a a' -> alike b b' -> alike (a ||| b) (a' ||| b').
Proof.
  intros [-> | [Ha Ha']] Hb.
  - unfold js_or. destruct (truthy a'); [now left | exact Hb].
  - now rewrite (js_or_falsy _ _ Ha), (js_or_falsy _ _ Ha').
Qed.

Lemma js_or_alike_default a a' d : alike a a' -> a ||| d = a' ||| d.
Proof.
  intros [-> | [Ha Ha']]; [reflexivity|].
  now rewrite (js_or_falsy _ _ Ha), (js_or_falsy _ _ Ha').
Qed.

Lemma field_blank_alike (raw : gmap string value) f g :
  alike (field (<[f := VString ""]> raw) g) (field (delete f raw) g).
Proof.
  destruct (decide (f = g)) as [<- | Hne].
  - rewrite field_insert_eq, field_delete_eq. right. now split.
  - rewrite (field_insert_ne _ _ _ _ Hne), (field_delete_ne _ _ _ Hne). now left.
Qed.

(** Lookup tables: own entries first, then the inherited members. *)
Lemma table_own_value (entries : list (string * value)) (E : list value) k v :
  Forall (fun kv => In (snd kv) E) entries ->
  (list_to_map entries : gmap string value) !! k = Some v -> In v E.
Proof.
  intros Hall Hk. apply elem_of_list_to_map_2 in Hk.
  rewrite Forall_forall in Hall. exact (Hall _ Hk).
Qed.

Lemma Get_cases (entries : list (string * value)) (E : list value) k d :
  Forall (fun kv => In (snd kv) E) entries ->
  Forall (fun v => truthy v = true) E ->
  In d E ->
  In (Get (list_to_map entries) k ||| d) E \/
  (inherited k = true /\ Get (list_to_map entries) k ||| d = VBuiltin k).
Proof.
  intros Hall Htruthy Hd. unfold Get.
  destruct ((list_to_map entries : gmap string value) !! k) as [v|] eqn:Hk.
  - left. pose proof (table_own_value _ _ _ _ Hall Hk) as Hv.
    rewrite js_or_truthy; [exact Hv|].
    rewrite Forall_forall in Htruthy. apply Htruthy. now apply list_elem_of_In.
  - destruct (inherited k) eqn:Hi.
    + right. now split.
    + left. exact Hd.
Qed.

(** After [toLowerCase], only the all-lower-case members can be reached. *)
Lemma inherited_lower k :
  all_units (fun c => negb (is_upper c)) k = true ->
  inherited k = true -> In k ["constructor"; "__proto__"].
Proof.
  intros Hlow Hin. unfold inherited in Hin.
  apply existsb_exists in Hin as [m [Hm Heq]].
  apply String.eqb_eq in Heq. subst m.
  simpl in Hm.
  repeat (destruct Hm as [<- | Hm]; [first [now left | now (right; left) | discriminate Hlow]|]).
  destruct Hm.
Qed.

End RuntimeFacts.

(** * Facts about the adapter *)

Section AdapterFacts.

Context {engine : DateEngine}.

Lemma ToString_printable v :
  unprintable v = false -> ToString v = Normal (text_of v).
Proof. unfold ToString. now intros ->. Qed.

Lemma new_Date_run v :
  new_Date v
  = if unprintable v then Throw conversion_error else Normal (time_value v).
Proof.
  destruct v; try reflexivity;
    unfold new_Date, ToString; now destruct (unprintable _).
Qed.

Lemma resolveStatus_run raw :
  resolveStatus raw
  = if unprintable (field raw "status" ||| VString "")
    then Throw conversion_error else Normal (status_value raw).
Proof. unfold resolveStatus, ToString. now destruct (unprintable _). Qed.

Lemma resolvePriority_run raw :
  resolvePriority raw
  = if unprintable (field raw "priority" ||| VString "")
    then Throw conversion_error else Normal (priority_value raw).
Proof. unfold resolvePriority, ToString. now destruct (unprintable _). Qed.

Lemma resolveTags_run raw :
  resolveTags raw
  = if tags_unprintable raw
    then Throw conversion_error else Normal (tags_value raw).
Proof.
  unfold resolveTags, tags_value, tags_unprintable, ToString.
  destruct (truthy (field raw "tags")); [|reflexivity].
  destruct (isArray (field raw "tags")); [reflexivity|].
  now destruct (unprintable _).
Qed.

Lemma resolveDueDate_run raw w :
  resolveDueDate raw w = (Normal (expected_dueDate raw), w).
Proof.
  unfold resolveDueDate, expected_dueDate, raw_date.
  rewrite js_or_find.
  destruct (List.find truthy _) as [x|] eqn:Hfind; simpl; [|reflexivity].
  apply find_some in Hfind as [_ Hx]. rewrite Hx. cbn [negb].
  unfold try_catch, bind, lift. rewrite new_Date_run.
  destruct (unprintable x); [reflexivity|].
  now destruct (time_value x).
Qed.

Lemma normalizeTask_run raw w :
  normalizeTask raw w
  = if printable raw
    then (Normal (normalized raw (clock w (reads w))), tick w)
    else (Throw conversion_error, w).
Proof.
  unfold normalizeTask, bind, lift, printable.
  rewrite resolveStatus_run, resolvePriority_run, resolveTags_run.
  unfold ToString.
  destruct (unprintable (field raw "_id")); [reflexivity|].
  destruct (unprintable (field raw "status" ||| VString ""));
    [reflexivity|].
  destruct (unprintable (field raw "priority" ||| VString ""));
    [reflexivity|].
  rewrite resolveDueDate_run.
  now destruct (tags_unprintable raw).
Qed.

Lemma normalizeTask_returns raw w :
  printable raw = true ->
  normalizeTask raw w = (Normal (normalized raw (clock w (reads w))), tick w).
Proof. intros H. now rewrite normalizeTask_run, H. Qed.

Lemma normalizeTask_throws raw w :
  printable raw = false -> normalizeTask raw w = (Throw conversion_error, w).
Proof. intros H. now rewrite normalizeTask_run, H. Qed.

Lemma normalizeTask_returned raw w t w' :
  normalizeTask raw w = (Normal t, w') ->
  printable raw = true /\ t = normalized raw (clock w (reads w)) /\
  w' = tick w.
Proof.
  rewrite normalizeTask_run. destruct (printable raw); [|discriminate].
  now intros [= <- <-].
Qed.

Ltac table_forall :=
  repeat (apply List.Forall_cons; [first [reflexivity | simpl; tauto]|]);
  apply List.Forall_nil.

Lemma expected_dueDate_raw_date raw :
  expected_dueDate raw =
    if truthy (raw_date raw)
    then if unprintable (raw_date raw) then raw_date raw
         else match time_value (raw_date raw) with
              | Some t => VString (Date_toISO t)
              | None => raw_date raw
              end
    else VNull.
Proof.
  unfold expected_dueDate, raw_date. rewrite js_or_find.
  destruct (List.find truthy _) as [x|] eqn:Hfind; simpl; [|reflexivity].
  apply find_some in Hfind as [_ Hx]. now rewrite Hx.
Qed.

Lemma statusMap_cases k :
  In (Get statusMap k ||| VString "TODO") TaskStatus \/
  (inherited k = true /\ Get statusMap k ||| VString "TODO" = VBuiltin k).
Proof.
  apply Get_cases; [table_forall | table_forall | simpl; tauto].
Qed.

Lemma priorityMap_cases k :
  In (Get priorityMap k ||| VString "MEDIUM") TaskPriority \/
  (inherited k = true /\ Get priorityMap k ||| VString "MEDIUM" = VBuiltin k).
Proof.
  apply Get_cases; [table_forall | table_forall | simpl; tauto].
Qed.

Lemma key_lower v :
  all_units (fun c => negb (is_upper c)) (trim (toLowerCase (text_of v))) = true.
Proof. apply all_units_trim, toLowerCase_lower. Qed.

Lemma resolveStatus_enumerated raw :
  ~ In (status_key raw) ["constructor"; "__proto__"] ->
  In (status_value raw) TaskStatus.
Proof.
  intros Hkey. unfold status_value.
  destruct (statusMap_cases (status_key raw)) as [H | [Hin _]]; [exact H|].
  exfalso. apply Hkey. apply inherited_lower; [apply key_lower | exact Hin].
Qed.

Lemma resolvePriority_enumerated raw :
  ~ In (priority_key raw) ["constructor"; "__proto__"] ->
  In (priority_value raw) TaskPriority.
Proof.
  intros Hkey. unfold priority_value.
  destruct (priorityMap_cases (priority_key raw)) as [H | [Hin _]]; [exact H|].
  exfalso. apply Hkey. apply inherited_lower; [apply key_lower | exact Hin].
Qed.

Lemma status_key_insert raw s :
  status_key (<["status" := VString s]> raw) = trim (toLowerCase s).
Proof. unfold status_key. now rewrite field_insert_eq, ToString_or_empty. Qed.

(** A word between white space, in any letter case, is looked up as the
    word itself. *)
Lemma key_of_padded_word lead trail mask word c rest :
  all_units is_white_space lead = true ->
  all_units is_white_space trail = true ->
  toLowerCase word = String c rest ->
  is_white_space c = false ->
  trimEnd (String c rest) = String c rest ->
  trim (toLowerCase (lead +:+ recase mask word +:+ trail)) = String c rest.
Proof.
  intros Hlead Htrail Hword Hc Hend.
  rewrite !toLowerCase_app, toLowerCase_recase, Hword. unfold trim.
  rewrite trimStart_white by now rewrite toLowerCase_white.
  change (String c rest +:+ toLowerCase trail)
    with (String c (rest +:+ toLowerCase trail)).
  rewrite (trimStart_fixed _ _ Hc).
  change (String c (rest +:+ toLowerCase trail))
    with (String c rest +:+ toLowerCase trail).
  rewrite trimEnd_white by now rewrite toLowerCase_white.
  exact Hend.
Qed.

Lemma resolveTags_alike raw raw' :
  alike (field raw "tags") (field raw' "tags") ->
  tags_value raw = tags_value raw'.
Proof.
  intros [H | [H H']]; unfold tags_value.
  - now rewrite H.
  - now rewrite H, H'.
Qed.

Lemma normalized_blank raw f now :
  f <> "_id" ->
  normalized (<[f := VString ""]> raw) now = normalized (delete f raw) now.
Proof.
  intros Hid.
  pose proof (field_blank_alike raw f) as A.
  unfold normalized. f_equal.
  - now rewrite field_insert_ne, field_delete_ne.
  - unfold resolveTitle.
    apply js_or_alike_default; repeat apply js_or_alike; apply A.
  - unfold resolveDescription.
    apply js_or_alike_default; repeat apply js_or_alike; apply A.
  - unfold status_value, status_key.
    now rewrite (js_or_alike_default _ _ (VString "") (A "status")).
  - unfold priority_value, priority_key.
    now rewrite (js_or_alike_default _ _ (VString "") (A "priority")).
  - unfold resolveAssignee.
    apply js_or_alike_default; repeat apply js_or_alike; apply A.
  - rewrite !expected_dueDate_raw_date.
    assert (raw_date (<[f := VString ""]> raw) = raw_date (delete f raw)) as ->;
      [|reflexivity].
    unfold raw_date.
    apply js_or_alike_default; repeat apply js_or_alike; apply A.
  - apply resolveTags_alike, A.
Qed.

Lemma printable_blank (raw : gmap string value) f :
  f <> "_id" ->
  printable (<[f := VString ""]> raw) = printable (delete f raw).
Proof.
  intros Hid. pose proof (field_blank_alike raw f) as A.
  unfold printable, tags_unprintable.
  rewrite field_insert_ne, field_delete_ne by exact Hid.
  rewrite (js_or_alike_default _ _ (VString "") (A "status")),
    (js_or_alike_default _ _ (VString "") (A "priority")).
  do 2 f_equal.
  destruct (A "tags") as [-> | [-> ->]]; reflexivity.
Qed.

End AdapterFacts.

(** * The claims *)

(** C1, as amended.  On every raw document whose [_id], status, priority and
    tags can be converted to strings, and in every world, [normalizeTask]
    returns normally, having read the clock once.  The [status] of its result
    is one of the literals TODO, IN_PROGRESS, REVIEW, DONE and its [priority]
    one of LOW, MEDIUM, HIGH, CRITICAL, provided the lower-cased, trimmed
    text looked up is not the name of an inherited member of the lookup
    table ([constructor], [__proto__]).  On every other raw document it
    raises the conversion error, without reading the clock. *)
Theorem normalizeTask_total_and_enumerated {engine : DateEngine}
    (raw : gmap string value) (w : World) :
  (printable raw = true ->
   exists t,
     normalizeTask raw w = (Normal t, tick w) /\
     (~ In (status_key raw) ["constructor"; "__proto__"] ->
      In (status t) TaskStatus) /\
     (~ In (priority_key raw) ["constructor"; "__proto__"] ->
      In (priority t) TaskPriority)) /\
  (printable raw = false ->
   normalizeTask raw w = (Throw conversion_error, w)).
Proof.
  split; [|apply normalizeTask_throws].
  intros Hprintable.
  exists (normalized raw (clock w (reads w))).
  split; [now apply normalizeTask_returns|]. split; intros Hkey; simpl.
  - now apply resolveStatus_enumerated.
  - now apply resolvePriority_enumerated.
Qed.

Lemma normalizeTask_total_and_enumerated_witness :
  exists t,
    normalizeTask (engine := IsoDate.engine)
      (doc [("status", VString " Done "); ("priority", VNumber 3)])
      sample_world = (Normal t, tick sample_world) /\
    In (status t) TaskStatus /\ In (priority t) TaskPriority.
Proof.
  destruct (normalizeTask_total_and_enumerated (engine := IsoDate.engine)
              (doc [("status", VString " Done "); ("priority", VNumber 3)])
              sample_world) as [Hreturns _].
  destruct (Hreturns eq_refl) as [t [Hrun [Hstatus Hpriority]]].
  exists t. split; [exact Hrun|].
  split; [apply Hstatus | apply Hpriority];
    vm_compute; intros [E | [E | []]]; discriminate E.
Defined.

(** C1 as stated fails three times.  The empty document gets the status
    TODO, which is not among BACKLOG, IN_PROGRESS, IN_REVIEW, DONE; the
    status text [constructor] finds the member the table inherits, which is
    in no enumeration at all; and on a status that is an object with a
    property [toString] of its own, [String(raw.status || "")] throws and
    [normalizeTask] with it. *)
Lemma status_outside_documented_enumeration :
  (exists t,
     fst (normalizeTask (engine := IsoDate.engine) empty_doc sample_world)
       = Normal t /\
     status t = VString "TODO" /\ ~ In (status t) documented_status) /\
  (exists t,
     fst (normalizeTask (engine := IsoDate.engine)
            (doc [("status", VString "constructor")]) sample_world)
       = Normal t /\
     status t = VBuiltin "constructor" /\
     ~ In (status t) documented_status /\ ~ In (status t) TaskStatus) /\
  fst (normalizeTask (engine := IsoDate.engine)
         (doc [("status", VObject [("toString", VNumber 1)])]) sample_world)
    = Throw (TypeError "Cannot convert object to primitive value").
Proof.
  split; [|split]; [eexists | eexists | vm_compute; reflexivity];
    (split; [vm_compute; reflexivity|]); simpl.
  - split; [reflexivity|]. vm_compute. intuition discriminate.
  - split; [reflexivity|]. split; vm_compute; intuition discriminate.
Qed.

Lemma unprintable_strings a b : unprintable (VString a ||| VString b) = false.
Proof. unfold js_or. now destruct (truthy (VString a)). Qed.

Lemma resolveStatus_of_string raw s :
  resolveStatus (<["status" := VString s]> raw)
  = Normal (status_value (<["status" := VString s]> raw)).
Proof.
  rewrite resolveStatus_run, field_insert_eq. now rewrite unprintable_strings.
Qed.

Lemma resolvePriority_of_string raw s :
  resolvePriority (<["priority" := VString s]> raw)
  = Normal (priority_value (<["priority" := VString s]> raw)).
Proof.
  rewrite resolvePriority_run, field_insert_eq.
  now rewrite unprintable_strings.
Qed.

(** C2, as amended.  The code ["2"] and the labels ["review"] and
    ["pending"], in any letter case and between any white space, all resolve
    to the literal REVIEW. *)
Theorem review_code_and_labels_resolve_to_REVIEW
    (raw : gmap string value) (word lead trail : string) (mask : list bool) :
  In word ["2"; "review"; "pending"] ->
  all_units is_white_space lead = true ->
  all_units is_white_space trail = true ->
  resolveStatus
    (<["status" := VString (lead +:+ recase mask word +:+ trail)]> raw)
  = Normal (VString "REVIEW").
Proof.
  intros Hword Hlead Htrail.
  rewrite resolveStatus_of_string. f_equal.
  unfold status_value. rewrite status_key_insert.
  destruct Hword as [<- | [<- | [<- | []]]].
  - rewrite (key_of_padded_word lead trail mask "2" "2" "");
      auto; vm_compute; reflexivity.
  - rewrite (key_of_padded_word lead trail mask "review" "r" "eview");
      auto; vm_compute; reflexivity.
  - rewrite (key_of_padded_word lead trail mask "pending" "p" "ending");
      auto; vm_compute; reflexivity.
Qed.

Lemma review_code_and_labels_resolve_to_REVIEW_witness :
  resolveStatus
    (<["status" := VString ("  " +:+ recase [true; false; true] "pending"
                            +:+ " ")]> empty_doc)
  = Normal (VString "REVIEW").
Proof.
  apply review_code_and_labels_resolve_to_REVIEW;
    [simpl; tauto | reflexivity | reflexivity].
Defined.

(** C2 as stated fails: the status ["2"] resolves to REVIEW, and the code
    has no literal IN_REVIEW. *)
Lemma review_code_is_not_IN_REVIEW :
  resolveStatus (doc [("status", VString "2")]) = Normal (VString "REVIEW") /\
  resolveStatus (doc [("status", VString "2")])
    <> Normal (VString "IN_REVIEW").
Proof. split; vm_compute; [reflexivity | discriminate]. Qed.

(** The numeric code is the same key as its string. *)
Lemma numeric_review_code (raw : gmap string value) :
  resolveStatus (<["status" := VNumber 2]> raw) = Normal (VString "REVIEW").
Proof.
  rewrite resolveStatus_run. unfold status_value, status_key.
  rewrite field_insert_eq. vm_compute. reflexivity.
Qed.

(** C3, as amended.  Let [x] be the first of [due], [due_date], [deadline]
    holding a truthy (non-empty) value.  [resolveDueDate] never raises; its
    result is the ISO form of [x] when [x] is a valid date, [x] itself when
    it is not (or cannot be converted), and [null] when there is no such
    [x], in particular when no alias is present.  Whenever [normalizeTask]
    returns, the [dueDate] of the normalized record is that result. *)
Theorem dueDate_of_first_truthy_alias {engine : DateEngine}
    (raw : gmap string value) (w : World) :
  exists v,
    resolveDueDate raw w = (Normal v, w) /\
    match List.find truthy
            [field raw "due"; field raw "due_date"; field raw "deadline"] with
    | Some x =>
        match new_Date x with
        | Normal (Some ms) => v = VString (Date_toISO ms)
        | Normal None => v = x
        | Throw _ => v = x
        end
    | None => v = VNull
    end /\
    (raw !! "due" = None -> raw !! "due_date" = None ->
     raw !! "deadline" = None -> v = VNull) /\
    (forall t w', normalizeTask raw w = (Normal t, w') -> dueDate t = v).
Proof.
  exists (expected_dueDate raw).
  split; [apply resolveDueDate_run|]. split; [|split].
  - unfold expected_dueDate.
    destruct (List.find truthy _) as [x|]; [|reflexivity].
    rewrite new_Date_run. destruct (unprintable x); [reflexivity|].
    now destruct (time_value x).
  - intros H1 H2 H3. unfold expected_dueDate.
    now rewrite !field_absent by assumption.
  - intros t w' Hrun.
    apply normalizeTask_returned in Hrun as [_ [-> _]]. reflexivity.
Qed.

Lemma dueDate_of_first_truthy_alias_witness :
  exists v,
    resolveDueDate (engine := IsoDate.engine)
      (doc [("due", VString "not-a-date")]) sample_world
      = (Normal v, sample_world) /\
    dueDate (normalized (engine := IsoDate.engine)
               (doc [("due", VString "not-a-date")])
               (clock sample_world (reads sample_world))) = v.
Proof.
  destruct (dueDate_of_first_truthy_alias (engine := IsoDate.engine)
              (doc [("due", VString "not-a-date")]) sample_world)
    as [v [Hrun [_ [_ Hrecord]]]].
  exists v. split; [exact Hrun|].
  apply (Hrecord
           (normalized (engine := IsoDate.engine)
              (doc [("due", VString "not-a-date")])
              (clock sample_world (reads sample_world)))
           (tick sample_world)).
  apply normalizeTask_returns. reflexivity.
Defined.

(** C3 as stated fails on an alias that holds the empty string: the value
    is there and does not parse, yet the [dueDate] is [null] and not the raw
    value. *)
Lemma empty_due_is_not_passed_through :
  exists t,
    fst (normalizeTask (engine := IsoDate.engine)
           (doc [("due", VString "")]) sample_world) = Normal t /\
    doc [("due", VString "")] !! "due" = Some (VString "") /\
    new_Date (engine := IsoDate.engine) (VString "") = Normal None /\
    dueDate t = VNull /\ dueDate t <> VString "".
Proof.
  eexists. split; [vm_compute; reflexivity|]. simpl.
  repeat split; try reflexivity. discriminate.
Qed.

(** The date-only engine on a few days, a leap day and the instants around
    the epoch and the year 0 among them. *)
Example IsoDate_samples :
  IsoDate.parse "2024-04-15" = Some 1713139200000 /\
  IsoDate.parse "2024-02-30" = None /\
  IsoDate.parse "not-a-date" = None /\
  IsoDate.toISO 1713139200000 = "2024-04-15T00:00:00.000Z" /\
  IsoDate.toISO 951782400000 = "2000-02-29T00:00:00.000Z" /\
  IsoDate.toISO (-1) = "1969-12-31T23:59:59.999Z" /\
  IsoDate.toISO (-62167219200001) = "-000001-12-31T23:59:59.999Z".
Proof. repeat split; vm_compute; reflexivity. Qed.

(** The examples of the design document, on the date-only engine, and a due
    date that cannot be converted. *)
Example due_examples :
  fst (resolveDueDate (engine := IsoDate.engine)
         (doc [("due", VString "not-a-date")]) sample_world)
    = Normal (VString "not-a-date") /\
  fst (resolveDueDate (engine := IsoDate.engine)
         (doc [("due_date", VString "2024-04-15")]) sample_world)
    = Normal (VString "2024-04-15T00:00:00.000Z") /\
  fst (resolveDueDate (engine := IsoDate.engine)
         (doc [("due", VObject [("toString", VNumber 1)])]) sample_world)
    = Normal (VObject [("toString", VNumber 1)]).
Proof. repeat split; vm_compute; reflexivity. Qed.

(** C4, as amended.  [resolveTags] gives the empty sequence when the raw
    field is absent, the raw array itself, element for element, when the raw
    field is an array, and a sequence of non-empty trimmed strings when it is
    any other value that can be converted to a string; on a non-empty value
    that is no array and cannot be converted it raises the conversion error.
    Whenever [normalizeTask] returns, the [tags] of the normalized record are
    what [resolveTags] gives. *)
Theorem tags_shape {engine : DateEngine}
    (raw : gmap string value) (w : World) :
  (raw !! "tags" = None -> resolveTags raw = Normal []) /\
  (forall l, field raw "tags" = VArray l -> resolveTags raw = Normal l) /\
  (isArray (field raw "tags") = false ->
   unprintable (field raw "tags") = false ->
   exists ts,
     resolveTags raw = Normal ts /\
     Forall (fun v => exists s, v = VString s /\ s <> "" /\ trimmed s) ts) /\
  (truthy (field raw "tags") = true -> isArray (field raw "tags") = false ->
   unprintable (field raw "tags") = true ->
   resolveTags raw = Throw conversion_error) /\
  (forall t w', normalizeTask raw w = (Normal t, w') ->
     resolveTags raw = Normal (tags t)).
Proof.
  rewrite resolveTags_run. unfold tags_unprintable, tags_value.
  split; [|split; [|split; [|split]]].
  - intros Habsent. now rewrite (field_absent _ _ Habsent).
  - intros l ->. reflexivity.
  - intros Hnot Hprint. rewrite Hnot, Hprint, andb_false_r.
    eexists. split; [reflexivity|].
    destruct (truthy (field raw "tags")); cbn [negb]; [|constructor].
    apply List.Forall_forall. intros v Hv.
    apply List.in_map_iff in Hv as [s [<- Hs]].
    apply List.filter_In in Hs as [Hs Hne].
    apply List.in_map_iff in Hs as [piece [<- _]].
    exists (trim piece). split; [reflexivity|]. split.
    + unfold non_empty in Hne. intros E. rewrite E in Hne. discriminate.
    + apply trim_trimmed.
  - now intros -> -> ->.
  - intros t w' Hrun.
    apply normalizeTask_returned in Hrun as [Hprintable [-> _]].
    unfold printable in Hprintable.
    apply andb_true_iff in Hprintable as [_ Htags].
    apply negb_true_iff in Htags. unfold tags_unprintable in Htags.
    now rewrite Htags.
Qed.

Lemma tags_shape_witness :
  exists ts,
    resolveTags (doc [("tags", VString " api ,, legacy ")]) = Normal ts /\
    Forall (fun v => exists s, v = VString s /\ s <> "" /\ trimmed s) ts.
Proof.
  destruct (tags_shape (engine := IsoDate.engine)
              (doc [("tags", VString " api ,, legacy ")]) sample_world)
    as [_ [_ [Hstrings _]]].
  apply Hstrings; reflexivity.
Defined.

(** C4 as stated fails on a raw array: its elements come back as they are,
    the empty and the untrimmed ones too. *)
Lemma raw_array_tags_are_not_cleaned :
  exists t,
    fst (normalizeTask (engine := IsoDate.engine)
           (doc [("tags", VArray [VString ""; VString " x "])]) sample_world)
      = Normal t /\
    tags t = [VString ""; VString " x "] /\
    ~ Forall (fun v => exists s, v = VString s /\ s <> "" /\ trimmed s)
             (tags t).
Proof.
  eexists. split; [vm_compute; reflexivity|]. simpl.
  split; [reflexivity|]. intros Hall.
  apply List.Forall_inv in Hall as [s [[= <-] [Hne _]]]. now apply Hne.
Qed.

(** C5, as amended.  The empty document normalizes to the defaults: the
    title "Untitled Task", the empty description, the status TODO, the
    priority MEDIUM, the assignee "Unassigned", no due date and no tags. *)
Theorem empty_document_defaults {engine : DateEngine} (w : World) :
  normalizeTask empty_doc w =
    (Normal {| id := "undefined";
               title := VString "Untitled Task";
               description := VString "";
               status := VString "TODO";
               priority := VString "MEDIUM";
               assignee := VString "Unassigned";
               dueDate := VNull;
               tags := [];
               normalizedAt := Date_toISO (clock w (reads w)) |},
     tick w).
Proof. rewrite normalizeTask_returns by reflexivity. reflexivity. Qed.

(** C5 as stated fails in its status: the default is TODO, not BACKLOG. *)
Lemma empty_document_status_is_not_BACKLOG :
  exists t,
    fst (normalizeTask (engine := IsoDate.engine) empty_doc sample_world)
      = Normal t /\
    status t = VString "TODO" /\ status t <> VString "BACKLOG".
Proof.
  eexists. split; [vm_compute; reflexivity|]. simpl.
  split; [reflexivity | discriminate].
Qed.

(** C6.  [resolveTitle] returns the first non-empty value among [title],
    [name], [task_name], in that order: [title] when both [title] and [name]
    are set, [task_name] when it alone is set, and "Untitled Task" when no
    alias holds a non-empty value. *)
Theorem resolveTitle_alias_priority (raw : gmap string value) :
  resolveTitle raw
    = default (VString "Untitled Task")
        (List.find truthy
           [field raw "title"; field raw "name"; field raw "task_name"]) /\
  (forall a b, a <> "" ->
     resolveTitle (<["title" := VString a]> (<["name" := VString b]> raw))
       = VString a) /\
  (forall c, c <> "" ->
     truthy (field raw "title") = false ->
     truthy (field raw "name") = false ->
     resolveTitle (<["task_name" := VString c]> raw) = VString c) /\
  (truthy (field raw "title") = false ->
   truthy (field raw "name") = false ->
   truthy (field raw "task_name") = false ->
   resolveTitle raw = VString "Untitled Task").
Proof.
  unfold resolveTitle. repeat split.
  - apply js_or_find.
  - intros a b Ha. rewrite field_insert_eq.
    apply truthy_VString in Ha. now rewrite !(js_or_truthy (VString a)).
  - intros c Hc Htitle Hname.
    rewrite !field_insert_ne, field_insert_eq by discriminate.
    rewrite (js_or_falsy _ _ Htitle), (js_or_falsy _ _ Hname).
    apply truthy_VString in Hc. now rewrite (js_or_truthy (VString c)).
  - intros Htitle Hname Htask.
    now rewrite (js_or_falsy _ _ Htitle), (js_or_falsy _ _ Hname),
      (js_or_falsy _ _ Htask).
Qed.

Lemma resolveTitle_alias_priority_witness :
  resolveTitle (<["title" := VString "Fix login"]>
                  (<["name" := VString "login bug"]> empty_doc))
    = VString "Fix login" /\
  resolveTitle (<["task_name" := VString "Rotate keys"]> empty_doc)
    = VString "Rotate keys" /\
  resolveTitle empty_doc = VString "Untitled Task".
Proof.
  destruct (resolveTitle_alias_priority empty_doc)
    as [_ [Hboth [Honly Hnone]]].
  split; [|split].
  - apply Hboth. discriminate.
  - apply Honly; [discriminate | reflexivity | reflexivity].
  - apply Hnone; reflexivity.
Defined.

(** C7.  A string of tags is split on commas, each piece trimmed and the
    empty pieces dropped, so that ["a, b ,c"] gives [a], [b], [c]; an array
    is returned as it is; an absent field gives the empty sequence. *)
Theorem resolveTags_coercion (raw : gmap string value) :
  (forall s,
     resolveTags (<["tags" := VString s]> raw)
       = Normal (List.map VString
                   (List.filter non_empty (List.map trim (split "," s))))) /\
  resolveTags (<["tags" := VString "a, b ,c"]> raw)
    = Normal [VString "a"; VString "b"; VString "c"] /\
  (forall l, resolveTags (<["tags" := VArray l]> raw) = Normal l) /\
  resolveTags (<["tags" := VArray [VString "x"; VString "y"]]> raw)
    = Normal [VString "x"; VString "y"] /\
  resolveTags (delete "tags" raw) = Normal [].
Proof.
  unfold resolveTags. repeat split.
  - intros s. rewrite field_insert_eq.
    destruct s as [|c s]; reflexivity.
  - rewrite field_insert_eq. reflexivity.
  - intros l. now rewrite field_insert_eq.
  - now rewrite field_insert_eq.
  - now rewrite field_delete_eq.
Qed.

Lemma later_tick n w : later n (tick w) = later (S n) w.
Proof. unfold later. symmetry. apply Nat.iter_succ_r. Qed.

(** [rawTasks.map(normalizeTask)] runs the normalizer once per element, from
    left to right, each run reading the clock once. *)
Lemma Array_map_normalizeTask {engine : DateEngine}
    (raws : list (gmap string value)) :
  Forall (fun raw => printable raw = true) raws ->
  forall w,
    exists out,
      Array_map normalizeTask raws w = (Normal out, later (List.length raws) w) /\
      List.length out = List.length raws /\
      forall i raw,
        raws !! i = Some raw ->
        exists t,
          out !! i = Some t /\
          normalizeTask raw (later i w) = (Normal t, later (S i) w).
Proof.
  induction 1 as [|x raws Hx _ IH]; intros w.
  - exists []. repeat split. intros i raw Hi. now rewrite lookup_nil in Hi.
  - destruct (IH (tick w)) as [out [Hrun [Hlen Hnth]]].
    exists (normalized x (clock w (reads w)) :: out). split; [|split].
    + cbn [Array_map]. unfold bind. rewrite (normalizeTask_returns _ _ Hx), Hrun.
      cbn [List.length]. now rewrite later_tick.
    + cbn [List.length]. now rewrite Hlen.
    + intros [|i] raw Hi.
      * injection Hi as <-. eexists. split; [reflexivity|].
        now apply normalizeTask_returns.
      * destruct (Hnth i raw Hi) as [t [Hout Ht]].
        exists t. split; [exact Hout|]. now rewrite !later_tick in Ht.
Qed.

(** A raw task that cannot be normalized stops the map at its exception. *)
Lemma Array_map_normalizeTask_throws {engine : DateEngine}
    (raws : list (gmap string value)) :
  Exists (fun raw => printable raw = false) raws ->
  forall w,
    exists w',
      Array_map normalizeTask raws w = (Throw conversion_error, w') /\
      clock w' = clock w.
Proof.
  induction raws as [|x raws IH]; intros Hex w.
  - inversion Hex.
  - cbn [Array_map]. unfold bind. rewrite normalizeTask_run.
    destruct (printable x) eqn:Hx.
    + apply List.Exists_cons in Hex as [Hex | Hex]; [congruence|].
      destruct (IH Hex (tick w)) as [w' [-> Hclock]].
      exists w'. split; [reflexivity | exact Hclock].
    + exists w. split; reflexivity.
Qed.

(** C8, as amended.  When every raw task can be normalized, the batch form,
    [rawTasks.map(normalizeTask)] inside [legacyAdapterMiddleware], stores a
    sequence of the same length as the input whose i-th element is the
    normalization of the i-th raw record (run after the i earlier ones), and
    goes on to [next()].  When normalizing some raw task raises, it stores
    nothing and hands the exception to [next]. *)
Theorem legacyAdapterMiddleware_preserves_order {engine : DateEngine}
    (raws : list (gmap string value)) (old : option (list NormalizedTask))
    (w : World) :
  (Forall (fun raw => printable raw = true) raws ->
   exists out,
     legacyAdapterMiddleware {| rawTasks := Some raws; tasks := old |} w
       = ({| rawTasks := Some raws; tasks := Some out |}, next,
          later (List.length raws) w) /\
     List.length out = List.length raws /\
     forall i raw,
       raws !! i = Some raw ->
       exists t,
         out !! i = Some t /\
         normalizeTask raw (later i w) = (Normal t, later (S i) w)) /\
  (Exists (fun raw => printable raw = false) raws ->
   exists w',
     legacyAdapterMiddleware {| rawTasks := Some raws; tasks := old |} w
       = ({| rawTasks := Some raws; tasks := old |},
          next_err conversion_error, w')).
Proof.
  split.
  - intros Hall.
    destruct (Array_map_normalizeTask raws Hall w) as [out [Hrun [Hlen Hnth]]].
    exists out. split; [|split; assumption].
    unfold legacyAdapterMiddleware. cbn [rawTasks]. now rewrite Hrun.
  - intros Hex.
    destruct (Array_map_normalizeTask_throws raws Hex w) as [w' [Hrun _]].
    exists w'. unfold legacyAdapterMiddleware. cbn [rawTasks].
    now rewrite Hrun.
Qed.

Lemma legacyAdapterMiddleware_preserves_order_witness :
  exists out t,
    fst (fst (legacyAdapterMiddleware (engine := IsoDate.engine)
                {| rawTasks := Some [doc [("title", VString "first")];
                                     doc [("name", VString "second")];
                                     doc [("task_name", VString "third")]];
                   tasks := None |} sample_world))
      = {| rawTasks := Some [doc [("title", VString "first")];
                             doc [("name", VString "second")];
                             doc [("task_name", VString "third")]];
           tasks := Some out |} /\
    out !! 1%nat = Some t /\
    normalizeTask (engine := IsoDate.engine)
      (doc [("name", VString "second")]) (later 1 sample_world)
      = (Normal t, later 2 sample_world).
Proof.
  destruct (legacyAdapterMiddleware_preserves_order
              (engine := IsoDate.engine)
              [doc [("title", VString "first")];
               doc [("name", VString "second")];
               doc [("task_name", VString "third")]] None sample_world)
    as [Hgood _].
  destruct Hgood as [out [Hrun [_ Hnth]]].
  { repeat (apply List.Forall_cons; [reflexivity|]). apply List.Forall_nil. }
  destruct (Hnth 1%nat (doc [("name", VString "second")]) eq_refl)
    as [t [Hout Ht]].
  exists out, t. rewrite Hrun. repeat split; assumption.
Defined.

(** C8 as stated fails on a batch holding a raw task that cannot be
    normalized: the middleware stores no tasks and calls [next(err)]. *)
Lemma batch_with_unprintable_status_is_not_normalized :
  legacyAdapterMiddleware (engine := IsoDate.engine)
    {| rawTasks := Some [doc [("title", VString "ok")];
                         doc [("status", VObject [("toString", VNumber 1)])]];
       tasks := None |} sample_world
  = ({| rawTasks := Some [doc [("title", VString "ok")];
                          doc [("status", VObject [("toString", VNumber 1)])]];
        tasks := None |},
     next_err (TypeError "Cannot convert object to primitive value"),
     tick sample_world).
Proof.
  unfold legacyAdapterMiddleware. cbn [rawTasks Array_map]. unfold bind.
  rewrite normalizeTask_returns by reflexivity.
  rewrite normalizeTask_throws by reflexivity. reflexivity.
Qed.



(** C10.  For each of the alias, status, priority and tags fields, a
    document holding the empty string there and the document without the
    field normalize alike: in the same world they end in the very same way,
    and in any two worlds both return records that agree up to
    [normalizedAt], or both raise the same exception. *)
Theorem empty_string_field_is_absent {engine : DateEngine}
    (raw : gmap string value) (f : string) (w1 w2 : World) :
  In f alias_fields ->
  normalizeTask (<[f := VString ""]> raw) w1 = normalizeTask (delete f raw) w1 /\
  same_outcome (fst (normalizeTask (<[f := VString ""]> raw) w1))
               (fst (normalizeTask (delete f raw) w2)).
Proof.
  intros Hf.
  assert (f <> "_id") as Hid.
  { intros ->. simpl in Hf. intuition discriminate. }
  rewrite !normalizeTask_run.
  rewrite (printable_blank raw f Hid), !(normalized_blank raw f _ Hid).
  split; [reflexivity|].
  destruct (printable (delete f raw)); cbn [fst]; [|reflexivity].
  unfold same_outcome, same_fields. repeat split.
Qed.

Lemma empty_string_field_is_absent_witness :
  same_outcome
    (fst (normalizeTask (engine := IsoDate.engine)
            (<["due" := VString ""]> (doc [("name", VString "Payroll")]))
            sample_world))
    (fst (normalizeTask (engine := IsoDate.engine)
            (delete "due" (doc [("name", VString "Payroll")]))
            (tick sample_world))).
Proof.
  apply (empty_string_field_is_absent (engine := IsoDate.engine)
           (doc [("name", VString "Payroll")]) "due"
           sample_world (tick sample_world)).
  simpl. tauto.
Defined.

(** * Further properties of the resolvers *)

Lemma padded_key lead trail mask word :
  all_units is_white_space lead = true ->
  all_units is_white_space trail = true ->
  clean_word (toLowerCase word) = true ->
  trim (toLowerCase (lead +:+ recase mask word +:+ trail)) = toLowerCase word.
Proof.
  intros Hlead Htrail Hclean. unfold clean_word in Hclean.
  destruct (toLowerCase word) as [|c rest] eqn:Hword; [discriminate|].
  apply andb_true_iff in Hclean as [Hc Hend].
  apply negb_true_iff in Hc. apply String.eqb_eq in Hend.
  now apply key_of_padded_word.
Qed.

Lemma priority_key_insert raw s :
  priority_key (<["priority" := VString s]> raw) = trim (toLowerCase s).
Proof. unfold priority_key. now rewrite field_insert_eq, ToString_or_empty. Qed.

Ltac table_entry H :=
  apply elem_of_list_to_map_2 in H;
  repeat (apply elem_of_cons in H as [H | H];
          [injection H as -> ->; vm_compute; reflexivity|]);
  now apply elem_of_nil in H.

(** Every key of the tables is in lower case and survives [trim], and
    looking it up gives its own entry. *)
Lemma statusMap_entry k v :
  statusMap !! k = Some v ->
  toLowerCase k = k /\ clean_word k = true /\
  Get statusMap k ||| VString "TODO" = v.
Proof.
  intros H. repeat split; revert H; unfold statusMap; intros H; table_entry H.
Qed.

Lemma priorityMap_entry k v :
  priorityMap !! k = Some v ->
  toLowerCase k = k /\ clean_word k = true /\
  Get priorityMap k ||| VString "MEDIUM" = v.
Proof.
  intros H. repeat split; revert H; unfold priorityMap; intros H; table_entry H.
Qed.

(** X1.  Every entry of [statusMap] is honoured whatever the letter case of
    the label and the white space around it: a status that is a key of the
    table, re-cased and padded, resolves to the value of that key. *)
Theorem resolveStatus_honours_every_entry
    (raw : gmap string value) (k lead trail : string) (v : value)
    (mask : list bool) :
  statusMap !! k = Some v ->
  all_units is_white_space lead = true ->
  all_units is_white_space trail = true ->
  resolveStatus (<["status" := VString (lead +:+ recase mask k +:+ trail)]> raw)
  = Normal v.
Proof.
  intros Hk Hlead Htrail.
  destruct (statusMap_entry k v Hk) as [Hlow [Hclean Hget]].
  rewrite resolveStatus_of_string. f_equal.
  unfold status_value. rewrite status_key_insert, padded_key; auto.
  - now rewrite Hlow.
  - now rewrite Hlow.
Qed.

Lemma resolveStatus_honours_every_entry_witness :
  resolveStatus
    (<["status" := VString (" " +:+ recase [true; true; true] "wip" +:+ "  ")]>
       empty_doc)
  = Normal (VString "IN_PROGRESS").
Proof.
  apply resolveStatus_honours_every_entry; reflexivity.
Defined.

(** X2.  Every entry of [priorityMap] is honoured whatever the letter case
    of the label and the white space around it. *)
Theorem resolvePriority_honours_every_entry
    (raw : gmap string value) (k lead trail : string) (v : value)
    (mask : list bool) :
  priorityMap !! k = Some v ->
  all_units is_white_space lead = true ->
  all_units is_white_space trail = true ->
  resolvePriority
    (<["priority" := VString (lead +:+ recase mask k +:+ trail)]> raw)
  = Normal v.
Proof.
  intros Hk Hlead Htrail.
  destruct (priorityMap_entry k v Hk) as [Hlow [Hclean Hget]].
  rewrite resolvePriority_of_string. f_equal.
  unfold priority_value. rewrite priority_key_insert, padded_key; auto.
  - now rewrite Hlow.
  - now rewrite Hlow.
Qed.

Lemma resolvePriority_honours_every_entry_witness :
  resolvePriority
    (<["priority" := VString (recase [true] "blocker" +:+ " ")]> empty_doc)
  = Normal (VString "CRITICAL").
Proof.
  apply (resolvePriority_honours_every_entry empty_doc "blocker" "" " ");
    reflexivity.
Defined.

(** X3.  A numeric code and its decimal string are the same status and the
    same priority, for every integer: the number 0, which is falsy, and the
    string ["0"] included. *)
Theorem numeric_code_is_its_string (raw : gmap string value) (n : Z) :
  resolveStatus (<["status" := VNumber n]> raw)
    = resolveStatus (<["status" := VString (pretty n)]> raw) /\
  resolvePriority (<["priority" := VNumber n]> raw)
    = resolvePriority (<["priority" := VString (pretty n)]> raw).
Proof.
  rewrite !resolveStatus_of_string, !resolvePriority_of_string.
  rewrite resolveStatus_run, resolvePriority_run, !field_insert_eq.
  assert (forall d, unprintable (VNumber n ||| VString d) = false) as Hprint.
  { intros d. unfold js_or. now destruct (truthy (VNumber n)). }
  rewrite !Hprint.
  enough (status_value (<["status" := VNumber n]> raw)
            = status_value (<["status" := VString (pretty n)]> raw) /\
          priority_value (<["priority" := VNumber n]> raw)
            = priority_value (<["priority" := VString (pretty n)]> raw))
    as [-> ->] by now split.
  unfold status_value, priority_value.
  rewrite status_key_insert, priority_key_insert.
  unfold status_key, priority_key. rewrite !field_insert_eq.
  destruct (Z.eq_dec n 0) as [-> | Hn].
  - split; vm_compute; reflexivity.
  - assert (VNumber n ||| VString "" = VNumber n) as ->.
    { apply js_or_truthy. simpl. now apply negb_true_iff, Z.eqb_neq. }
    split; reflexivity.
Qed.

Lemma truthy_or_default a d : truthy d = true -> truthy (a ||| d) = true.
Proof. intros Hd. unfold js_or. now destruct (truthy a) eqn:Ha. Qed.

(** X4.  The title and the assignee of a normalized record are never
    falsy, so never the empty string, and the description is a falsy value
    only when it is the empty string. *)
Theorem title_and_assignee_are_populated (raw : gmap string value) :
  truthy (resolveTitle raw) = true /\
  truthy (resolveAssignee raw) = true /\
  (truthy (resolveDescription raw) = false ->
   resolveDescription raw = VString "").
Proof.
  unfold resolveTitle, resolveAssignee, resolveDescription.
  repeat split; try (now apply truthy_or_default).
  intros H.
  destruct (truthy (field raw "desc" ||| field raw "description")) eqn:E.
  - rewrite (js_or_truthy _ _ E) in H. congruence.
  - apply (js_or_falsy _ _ E).
Qed.

Lemma title_and_assignee_are_populated_witness :
  resolveDescription (doc [("desc", VString ""); ("description", VNumber 0)])
    = VString "".
Proof.
  apply (title_and_assignee_are_populated
           (doc [("desc", VString ""); ("description", VNumber 0)])).
  reflexivity.
Defined.

(** X5.  The description is [desc] when that is non-empty, else
    [description] when that is non-empty, else the empty string; the assignee
    is the first non-empty of [assignee], [owner], [member], else
    "Unassigned".  An empty earlier alias does not hide a later one. *)
Theorem description_and_assignee_alias_order (raw : gmap string value) :
  (truthy (field raw "desc") = true ->
   resolveDescription raw = field raw "desc") /\
  (truthy (field raw "desc") = false ->
   truthy (field raw "description") = true ->
   resolveDescription raw = field raw "description") /\
  (truthy (field raw "desc") = false ->
   truthy (field raw "description") = false ->
   resolveDescription raw = VString "") /\
  resolveAssignee raw
    = default (VString "Unassigned")
        (List.find truthy
           [field raw "assignee"; field raw "owner"; field raw "member"]).
Proof.
  unfold resolveDescription, resolveAssignee. repeat split.
  - intros H. now rewrite (js_or_truthy _ (field raw "description") H),
      (js_or_truthy _ _ H).
  - intros H1 H2. now rewrite (js_or_falsy _ _ H1), (js_or_truthy _ _ H2).
  - intros H1 H2. now rewrite (js_or_falsy _ _ H1), (js_or_falsy _ _ H2).
  - apply js_or_find.
Qed.

Lemma description_and_assignee_alias_order_witness :
  resolveDescription
    (doc [("desc", VString ""); ("description", VString "Quarterly audit")])
  = VString "Quarterly audit".
Proof.
  apply (description_and_assignee_alias_order
           (doc [("desc", VString "");
                 ("description", VString "Quarterly audit")]));
    reflexivity.
Defined.

Section Independence.

Context {engine : DateEngine}.

(** The normalized record is a function of the fourteen fields the adapter
    reads and of [_id]. *)
Lemma normalized_ext raw raw' now :
  (forall f, In f ("_id" :: alias_fields) -> field raw f = field raw' f) ->
  normalized raw now = normalized raw' now.
Proof.
  intros H.
  assert (forall f, In f ("_id" :: alias_fields) ->
                    field raw f = field raw' f) as H' by exact H.
  unfold normalized, resolveTitle, resolveDescription, status_value,
    status_key, priority_value, priority_key, resolveAssignee,
    expected_dueDate, tags_value.
  rewrite (H "_id"), (H "title"), (H "name"), (H "task_name"), (H "desc"),
    (H "description"), (H "status"), (H "priority"), (H "assignee"),
    (H "owner"), (H "member"), (H "due"), (H "due_date"), (H "deadline"),
    (H "tags") by (simpl; tauto).
  reflexivity.
Qed.

(** Whether the conversions go through depends on the same fields. *)
Lemma printable_ext raw raw' :
  (forall f, In f ("_id" :: alias_fields) -> field raw f = field raw' f) ->
  printable raw = printable raw'.
Proof.
  intros H. unfold printable, tags_unprintable.
  rewrite (H "_id"), (H "status"), (H "priority"), (H "tags")
    by (simpl; tauto).
  reflexivity.
Qed.

End Independence.

(** X6.  Keys the adapter does not know are ignored: adding, changing or
    removing a field other than [_id] and the fourteen it reads changes
    nothing in the result. *)
Theorem unknown_fields_are_ignored {engine : DateEngine}
    (raw : gmap string value) (f : string) (v : value) (w : World) :
  ~ In f ("_id" :: alias_fields) ->
  normalizeTask (<[f := v]> raw) w = normalizeTask raw w /\
  normalizeTask (delete f raw) w = normalizeTask raw w.
Proof.
  intros Hf. rewrite !normalizeTask_run.
  assert (forall g, In g ("_id" :: alias_fields) ->
                    field (<[f := v]> raw) g = field raw g) as Hins.
  { intros g Hg. apply field_insert_ne. intros ->. contradiction. }
  assert (forall g, In g ("_id" :: alias_fields) ->
                    field (delete f raw) g = field raw g) as Hdel.
  { intros g Hg. apply field_delete_ne. intros ->. contradiction. }
  rewrite (printable_ext _ _ Hins), (printable_ext _ _ Hdel).
  rewrite (normalized_ext _ _ (clock w (reads w)) Hins).
  rewrite (normalized_ext _ _ (clock w (reads w)) Hdel).
  now split.
Qed.

Lemma unknown_fields_are_ignored_witness :
  normalizeTask (engine := IsoDate.engine)
    (<["legacy_ref" := VString "JIRA-001"]> (doc [("title", VString "Auth")]))
    sample_world
  = normalizeTask (engine := IsoDate.engine)
      (doc [("title", VString "Auth")]) sample_world.
Proof.
  apply (unknown_fields_are_ignored (engine := IsoDate.engine)).
  vm_compute. intuition discriminate.
Defined.

(** * Tags written as a string *)

Lemma resolveTags_string (raw : gmap string value) s :
  resolveTags (<["tags" := VString s]> raw)
  = Normal
      (List.map VString (List.filter non_empty (List.map trim (split "," s)))).
Proof.
  unfold resolveTags. rewrite field_insert_eq. destruct s; reflexivity.
Qed.

Lemma split_app_sep sep t s :
  all_units (fun c => negb (Ascii.eqb c sep)) t = true ->
  split sep (t +:+ String sep s) = t :: split sep s.
Proof.
  induction t as [|c t IH]; simpl.
  - intros _. now rewrite Ascii.eqb_refl.
  - intros H. apply andb_true_iff in H as [Hc Ht].
    apply negb_true_iff in Hc. now rewrite Hc, (IH Ht).
Qed.

Lemma split_single sep t :
  all_units (fun c => negb (Ascii.eqb c sep)) t = true -> split sep t = [t].
Proof.
  induction t as [|c t IH]; simpl; [reflexivity|].
  intros H. apply andb_true_iff in H as [Hc Ht].
  apply negb_true_iff in Hc. now rewrite Hc, (IH Ht).
Qed.

(** [split] undoes [join] on pieces that do not hold the separator. *)
Lemma split_concat sep (ts : list string) :
  ts <> [] ->
  Forall (fun t => all_units (fun c => negb (Ascii.eqb c sep)) t = true) ts ->
  split sep (String.concat (String sep EmptyString) ts) = ts.
Proof.
  induction ts as [|t ts IH]; [congruence|]. intros _ Hall.
  apply List.Forall_cons_iff in Hall as [Ht Hts].
  destruct ts as [|t' ts].
  - simpl. now apply split_single.
  - change (String.concat (String sep EmptyString) (t :: t' :: ts))
      with (t +:+ String sep (String.concat (String sep EmptyString) (t' :: ts))).
    rewrite (split_app_sep _ _ _ Ht). f_equal. now apply IH.
Qed.

Lemma plain_tags_kept (ts : list string) :
  Forall plain_tag ts -> List.filter non_empty (List.map trim ts) = ts.
Proof.
  induction 1 as [|u us [Hne [Htrim _]] _ IH]; [reflexivity|].
  cbn [List.map List.filter]. rewrite Htrim, IH.
  unfold non_empty. apply String.eqb_neq in Hne. now rewrite Hne.
Qed.

(** X7.  Tags survive being joined with commas: when no tag is empty,
    padded with white space or holds a comma, the comma-joined string
    resolves to the same tags, in the same order, as the array does. *)
Theorem joined_tags_round_trip (raw : gmap string value) (ts : list string) :
  Forall plain_tag ts ->
  resolveTags (<["tags" := VString (String.concat "," ts)]> raw)
    = Normal (List.map VString ts) /\
  resolveTags (<["tags" := VString (String.concat "," ts)]> raw)
    = resolveTags (<["tags" := VArray (List.map VString ts)]> raw).
Proof.
  intros Hall.
  assert (resolveTags (<["tags" := VArray (List.map VString ts)]> raw)
          = Normal (List.map VString ts)) as Harray.
  { unfold resolveTags. now rewrite field_insert_eq. }
  rewrite Harray.
  enough (resolveTags (<["tags" := VString (String.concat "," ts)]> raw)
          = Normal (List.map VString ts)) as Hjoined by now split.
  rewrite resolveTags_string. f_equal.
  destruct ts as [|t ts]; [reflexivity|].
  rewrite split_concat; [|discriminate|].
  - f_equal. now apply plain_tags_kept.
  - eapply List.Forall_impl; [|exact Hall]. now intros u [_ [_ Hu]].
Qed.

Lemma joined_tags_round_trip_witness :
  resolveTags
    (<["tags" := VString (String.concat "," ["backend"; "security"; "API"])]>
       empty_doc)
  = Normal [VString "backend"; VString "security"; VString "API"].
Proof.
  apply (joined_tags_round_trip empty_doc ["backend"; "security"; "API"]).
  repeat (apply List.Forall_cons;
          [split; [discriminate | split; reflexivity]|]).
  apply List.Forall_nil.
Defined.

(** X8.  Tags read from anything but an array never hold a comma: whenever
    [resolveTags] returns, every tag is a string without one; and it does
    return when the tags can be converted to a string. *)
Theorem string_tags_hold_no_comma (raw : gmap string value) :
  isArray (field raw "tags") = false ->
  (forall ts, resolveTags raw = Normal ts ->
     Forall (fun v => exists s, v = VString s /\
                        all_units (fun c => negb (Ascii.eqb c ",")) s = true)
            ts) /\
  (unprintable (field raw "tags") = false ->
   exists ts, resolveTags raw = Normal ts).
Proof.
  intros Hnot. split.
  2: { intros Hprint. rewrite resolveTags_run. unfold tags_unprintable.
       rewrite Hprint, andb_false_r. now eexists. }
  intros ts. rewrite resolveTags_run.
  destruct (tags_unprintable raw); [discriminate|]. intros [= <-].
  unfold tags_value. rewrite Hnot.
  destruct (truthy (field raw "tags")); cbn [negb]; [|constructor].
  apply List.Forall_forall. intros v Hv.
  apply List.in_map_iff in Hv as [s [<- Hs]].
  apply List.filter_In in Hs as [Hs _].
  apply List.in_map_iff in Hs as [piece [<- Hpiece]].
  exists (trim piece). split; [reflexivity|].
  apply all_units_trim.
  pose proof (split_no_sep "," (text_of (field raw "tags"))) as Hall.
  rewrite List.Forall_forall in Hall. now apply Hall.
Qed.

Lemma string_tags_hold_no_comma_witness :
  Forall (fun v => exists s, v = VString s /\
                     all_units (fun c => negb (Ascii.eqb c ",")) s = true)
         [VString "design"; VString "review"].
Proof.
  apply (string_tags_hold_no_comma (doc [("tags", VString "design,review")]));
    reflexivity.
Defined.

(** * The middleware and the task routes *)

Lemma clock_later n w : clock (later n w) = clock w.
Proof. induction n as [|n IH]; [reflexivity | exact IH]. Qed.

Lemma reads_later n w : reads (later n w) = (reads w + n)%nat.
Proof.
  induction n as [|n IH]; simpl; [lia|].
  change (S (reads (later n w)) = (reads w + S n)%nat). lia.
Qed.

Lemma all_printable_or_not (raws : list (gmap string value)) :
  Forall (fun raw => printable raw = true) raws \/
  Exists (fun raw => printable raw = false) raws.
Proof.
  induction raws as [|x raws [IH | IH]].
  - left. apply List.Forall_nil.
  - destruct (printable x) eqn:Hx.
    + left. now apply List.Forall_cons.
    + right. now apply List.Exists_cons_hd.
  - right. now apply List.Exists_cons_tl.
Qed.

(** The map stops at the first raw task that cannot be normalized, having
    read the clock once for each task before it. *)
Lemma Array_map_stops_at_first {engine : DateEngine}
    (good : list (gmap string value)) bad rest :
  Forall (fun raw => printable raw = true) good ->
  printable bad = false ->
  forall w,
    Array_map normalizeTask (good ++ bad :: rest) w
    = (Throw conversion_error, later (List.length good) w).
Proof.
  intros Hgood Hbad.
  induction Hgood as [|x good Hx _ IH]; intros w.
  - cbn [app Array_map List.length]. unfold bind.
    now rewrite normalizeTask_throws.
  - cbn [app Array_map List.length]. unfold bind.
    rewrite (normalizeTask_returns _ _ Hx), IH. now rewrite later_tick.
Qed.

(** X9.  [legacyAdapterMiddleware] leaves [rawTasks] in place and the clock
    running as it was, whatever happens.  Without [rawTasks] it touches
    nothing and goes on with [next()]; an empty [rawTasks] gives an empty
    [tasks].  When a raw task cannot be normalized it stops at the first
    such task, having read the clock once for each task before it, leaves
    the locals as they were ([tasks] included) and calls [next(err)] with
    the conversion error; otherwise it calls [next()]. *)
Theorem legacyAdapterMiddleware_stops_at_first_failure {engine : DateEngine}
    (locals : Locals) (w : World) :
  (exists locals' outcome w',
     legacyAdapterMiddleware locals w = (locals', outcome, w') /\
     rawTasks locals' = rawTasks locals /\
     clock w' = clock w /\
     (outcome = next \/ (outcome = next_err conversion_error /\
                         locals' = locals))) /\
  (rawTasks locals = None ->
   legacyAdapterMiddleware locals w = (locals, next, w)) /\
  (rawTasks locals = Some [] ->
   legacyAdapterMiddleware locals w
   = ({| rawTasks := Some []; tasks := Some [] |}, next, w)) /\
  (forall good bad rest,
     rawTasks locals = Some (good ++ bad :: rest) ->
     Forall (fun raw => printable raw = true) good ->
     printable bad = false ->
     legacyAdapterMiddleware locals w
     = (locals, next_err conversion_error, later (List.length good) w)).
Proof.
  unfold legacyAdapterMiddleware. split; [|split; [|split]].
  - destruct (rawTasks locals) as [raws|] eqn:Hraw.
    + destruct (all_printable_or_not raws) as [Hall | Hex].
      * destruct (Array_map_normalizeTask raws Hall w) as [out [Hrun _]].
        rewrite Hrun. eexists _, _, _. split; [reflexivity|].
        cbn [rawTasks]. split; [reflexivity|].
        split; [apply clock_later | now left].
      * destruct (Array_map_normalizeTask_throws raws Hex w)
          as [w' [Hrun Hclock]].
        rewrite Hrun. exists locals, (next_err conversion_error), w'.
        split; [reflexivity|]. split; [exact Hraw|].
        split; [exact Hclock | now right].
    + exists locals, next, w. repeat split; auto.
  - now intros ->.
  - now intros ->.
  - intros good bad rest -> Hgood Hbad.
    now rewrite (Array_map_stops_at_first good bad rest Hgood Hbad).
Qed.

Lemma legacyAdapterMiddleware_stops_at_first_failure_witness :
  legacyAdapterMiddleware (engine := IsoDate.engine)
    {| rawTasks := Some [doc [("title", VString "ok")];
                         doc [("tags", VObject [("toString", VNumber 1)])];
                         doc [("title", VString "later")]];
       tasks := None |} sample_world
  = ({| rawTasks := Some [doc [("title", VString "ok")];
                          doc [("tags", VObject [("toString", VNumber 1)])];
                          doc [("title", VString "later")]];
        tasks := None |},
     next_err conversion_error, later 1 sample_world).
Proof.
  destruct (legacyAdapterMiddleware_stops_at_first_failure
              (engine := IsoDate.engine)
              {| rawTasks := Some [doc [("title", VString "ok")];
                                   doc [("tags",
                                         VObject [("toString", VNumber 1)])];
                                   doc [("title", VString "later")]];
                 tasks := None |} sample_world)
    as (_ & _ & _ & Hstop).
  apply (Hstop [doc [("title", VString "ok")]]
               (doc [("tags", VObject [("toString", VNumber 1)])])
               [doc [("title", VString "later")]]).
  - reflexivity.
  - apply List.Forall_cons; [reflexivity | apply List.Forall_nil].
  - reflexivity.
Defined.

(** X10.  [GET /api/tasks]: when every document fetched can be normalized,
    the last handler answers with one task per document, in the order
    fetched, and a [total] equal to their number; when one cannot, the
    handler is not reached and the conversion error goes to the error
    handler.  On locals without [tasks] the handler itself throws. *)
Theorem list_tasks_counts_the_fetched {engine : DateEngine}
    (raws : list (gmap string value)) (w : World) :
  (Forall (fun raw => printable raw = true) raws ->
   exists ts,
     get_tasks raws w
     = (Normal {| data := ts; total := List.length raws |},
        later (List.length raws) w) /\
     List.length ts = List.length raws /\
     forall i raw,
       raws !! i = Some raw ->
       exists t, ts !! i = Some t /\
                 fst (normalizeTask raw (later i w)) = Normal t) /\
  (Exists (fun raw => printable raw = false) raws ->
   exists w', get_tasks raws w = (Throw conversion_error, w')) /\
  (exists e, list_tasks {| rawTasks := Some raws; tasks := None |} = Throw e).
Proof.
  unfold get_tasks, legacyAdapterMiddleware. cbn [rawTasks].
  split; [|split].
  - intros Hall.
    destruct (Array_map_normalizeTask raws Hall w) as [out [Hrun [Hlen Hnth]]].
    rewrite Hrun. exists out. unfold list_tasks. cbn [tasks].
    rewrite Hlen. split; [reflexivity|]. split; [reflexivity|].
    intros i raw Hi. destruct (Hnth i raw Hi) as [t [Hout Ht]].
    exists t. split; [exact Hout|]. now rewrite Ht.
  - intros Hex.
    destruct (Array_map_normalizeTask_throws raws Hex w) as [w' [Hrun _]].
    rewrite Hrun. now exists w'.
  - eexists. reflexivity.
Qed.

Lemma list_tasks_counts_the_fetched_witness :
  exists ts,
    get_tasks (engine := IsoDate.engine)
      [doc [("_id", VString "a1"); ("name", VString "Audit")];
       doc [("_id", VString "b2"); ("status", VNumber 3)]] sample_world
    = (Normal {| data := ts; total := 2 |}, later 2 sample_world) /\
    List.length ts = 2%nat.
Proof.
  destruct (list_tasks_counts_the_fetched (engine := IsoDate.engine)
              [doc [("_id", VString "a1"); ("name", VString "Audit")];
               doc [("_id", VString "b2"); ("status", VNumber 3)]]
              sample_world)
    as [Hgood _].
  destruct Hgood as [ts [Hrun [Hlen _]]].
  { repeat (apply List.Forall_cons; [reflexivity|]). apply List.Forall_nil. }
  exists ts. split; assumption.
Defined.

Lemma created_fields_read (body : CreateTaskBody) :
  field (created_fields body) "title" = VString (body_title body) /\
  field (created_fields body) "name" = VUndefined /\
  field (created_fields body) "task_name" = VUndefined /\
  field (created_fields body) "desc" = VString (body_description body) /\
  field (created_fields body) "description" = VUndefined /\
  field (created_fields body) "status"
    = VString (toLowerCase (body_status body)) /\
  field (created_fields body) "priority"
    = VString (toLowerCase (body_priority body)) /\
  field (created_fields body) "assignee" = VString (body_assignee body) /\
  field (created_fields body) "owner" = VUndefined /\
  field (created_fields body) "member" = VUndefined /\
  field (created_fields body) "due" = VUndefined /\
  field (created_fields body) "due_date" = body_dueDate body /\
  field (created_fields body) "deadline" = VUndefined /\
  field (created_fields body) "tags"
    = VArray (List.map VString (body_tags body)).
Proof. repeat split; reflexivity. Qed.

Lemma enumerated_round_trip :
  (forall s, In s ["TODO"; "IN_PROGRESS"; "REVIEW"; "DONE"] ->
     Get statusMap (trim (toLowerCase (toLowerCase s))) ||| VString "TODO"
       = VString s) /\
  (forall p, In p ["LOW"; "MEDIUM"; "HIGH"; "CRITICAL"] ->
     Get priorityMap (trim (toLowerCase (toLowerCase p))) ||| VString "MEDIUM"
       = VString p).
Proof.
  split; intros x Hx; simpl in Hx;
    repeat (destruct Hx as [<- | Hx]; [vm_compute; reflexivity|]);
    destruct Hx.
Qed.

(** X11.  [POST /api/tasks] echoes what it stored: for a body accepted by
    [createTaskSchema] (a non-empty title, a status and a priority of the
    enumerations), the normalization of a document holding the fields the
    handler writes depends on its [_id] alone for whether it returns: it
    raises the conversion error when [_id] cannot be converted to a string,
    and otherwise returns a task with the string of [_id] as [id]; the
    posted title, description, status, priority and tags; the posted
    assignee, or "Unassigned" for an empty one; and no due date when none
    was posted, else its ISO form or itself. *)
Theorem created_task_is_echoed {engine : DateEngine}
    (body : CreateTaskBody) (raw : gmap string value) (w : World) :
  body_title body <> "" ->
  In (body_status body) ["TODO"; "IN_PROGRESS"; "REVIEW"; "DONE"] ->
  In (body_priority body) ["LOW"; "MEDIUM"; "HIGH"; "CRITICAL"] ->
  (forall f, In f alias_fields -> field raw f = field (created_fields body) f) ->
  (unprintable (field raw "_id") = true ->
   normalizeTask raw w = (Throw conversion_error, w)) /\
  (unprintable (field raw "_id") = false ->
   exists t,
     normalizeTask raw w = (Normal t, tick w) /\
     ToString (field raw "_id") = Normal (id t) /\
     title t = VString (body_title body) /\
     description t = VString (body_description body) /\
     status t = VString (body_status body) /\
     priority t = VString (body_priority body) /\
     assignee t = VString (if String.eqb (body_assignee body) ""
                           then "Unassigned" else body_assignee body) /\
     tags t = List.map VString (body_tags body) /\
     dueDate t = (if truthy (body_dueDate body)
                  then match new_Date (body_dueDate body) with
                       | Normal (Some ms) => VString (Date_toISO ms)
                       | _ => body_dueDate body
                       end
                  else VNull)).
Proof.
  intros Htitle Hstatus Hpriority Hstored.
  destruct (created_fields_read body)
    as (Ft & Fn & Ftn & Fd & Fdn & Fs & Fp & Fa & Fo & Fm & Fdu & Fdd & Fdl & Fg).
  assert (printable raw = negb (unprintable (field raw "_id"))) as Hprintable.
  { unfold printable, tags_unprintable.
    rewrite (Hstored "status"), (Hstored "priority"), (Hstored "tags")
      by (simpl; tauto).
    rewrite Fs, Fp, Fg, !unprintable_strings. cbn [isArray negb].
    now rewrite andb_false_r, !andb_true_r. }
  rewrite normalizeTask_run, Hprintable.
  split; intros Hid; rewrite Hid; cbn [negb]; [reflexivity|].
  exists (normalized raw (clock w (reads w))).
  split; [reflexivity|].
  split; [now apply ToString_printable|].
  cbn [title description status priority assignee tags dueDate normalized].
  rewrite expected_dueDate_raw_date.
  unfold resolveTitle, resolveDescription, status_value, status_key,
    priority_value, priority_key, resolveAssignee, raw_date, tags_value.
  rewrite (Hstored "title"), (Hstored "name"), (Hstored "task_name"),
    (Hstored "desc"), (Hstored "description"), (Hstored "status"),
    (Hstored "priority"), (Hstored "assignee"), (Hstored "owner"),
    (Hstored "member"), (Hstored "due"), (Hstored "due_date"),
    (Hstored "deadline"), (Hstored "tags") by (simpl; tauto).
  rewrite Ft, Fn, Ftn, Fd, Fdn, Fs, Fp, Fa, Fo, Fm, Fdu, Fdd, Fdl, Fg.
  rewrite !ToString_or_empty.
  destruct enumerated_round_trip as [Hs Hp].
  rewrite (Hs _ Hstatus), (Hp _ Hpriority).
  apply truthy_VString in Htitle.
  repeat split.
  - now rewrite !(js_or_truthy (VString (body_title body))).
  - now destruct (body_description body).
  - now destruct (body_assignee body).
  - rewrite (js_or_falsy VUndefined) by reflexivity.
    destruct (truthy (body_dueDate body)) eqn:E.
    + rewrite !(js_or_truthy (body_dueDate body)) by exact E. rewrite E.
      rewrite new_Date_run.
      destruct (unprintable (body_dueDate body)); [reflexivity|].
      now destruct (time_value (body_dueDate body)).
    + rewrite (js_or_falsy (body_dueDate body)) by exact E. reflexivity.
Qed.

Lemma created_task_is_echoed_witness :
  exists t,
    normalizeTask (engine := IsoDate.engine)
      (<["_id" := VString "65f0c0ffee"]>
         (created_fields
            {| body_title := "Auth API"; body_description := "";
               body_status := "IN_PROGRESS"; body_priority := "HIGH";
               body_assignee := ""; body_dueDate := VString "2025-12-31";
               body_tags := ["backend"] |}))
      sample_world = (Normal t, tick sample_world) /\
    id t = "65f0c0ffee" /\
    title t = VString "Auth API" /\ status t = VString "IN_PROGRESS" /\
    priority t = VString "HIGH" /\ assignee t = VString "Unassigned" /\
    dueDate t = VString "2025-12-31T00:00:00.000Z".
Proof.
  destruct (created_task_is_echoed (engine := IsoDate.engine)
              {| body_title := "Auth API"; body_description := "";
                 body_status := "IN_PROGRESS"; body_priority := "HIGH";
                 body_assignee := ""; body_dueDate := VString "2025-12-31";
                 body_tags := ["backend"] |}
              (<["_id" := VString "65f0c0ffee"]>
                 (created_fields
                    {| body_title := "Auth API"; body_description := "";
                       body_status := "IN_PROGRESS"; body_priority := "HIGH";
                       body_assignee := ""; body_dueDate := VString "2025-12-31";
                       body_tags := ["backend"] |}))
              sample_world)
    as [_ Hreturns].
  - discriminate.
  - simpl. tauto.
  - simpl. tauto.
  - intros f Hf. apply field_insert_ne. intros <-.
    simpl in Hf. intuition discriminate.
  - destruct Hreturns as (t & Hrun & Hid & Ht & _ & Hs & Hp & Ha & _ & Hd);
      [reflexivity|].
    exists t. injection Hid as Hid.
    split; [exact Hrun|]. split; [now symmetry|].
    split; [exact Ht|]. split; [exact Hs|]. split; [exact Hp|].
    split; [exact Ha|]. rewrite Hd. reflexivity.
Defined.

(** X12.  [PATCH /api/tasks/:id] changes the status and nothing else: after
    [task.status = req.body.status.toLowerCase()] with a status of the
    enumeration, whenever the normalization of the task returns it has that
    status, and its id, title, description, priority, assignee, due date and
    tags are those of the normalization of the task before, when that
    returned too.  It returns whenever the task before could be normalized,
    and when it raises, the task before raised the same exception. *)
Theorem patched_status_is_echoed {engine : DateEngine}
    (task : gmap string value) (s : string) (w w' : World) :
  In s ["TODO"; "IN_PROGRESS"; "REVIEW"; "DONE"] ->
  (forall after w2,
     normalizeTask (patched task s) w' = (Normal after, w2) ->
     status after = VString s /\ w2 = tick w' /\
     forall before w1,
       normalizeTask task w = (Normal before, w1) ->
       id after = id before /\ title after = title before /\
       description after = description before /\
       priority after = priority before /\
       assignee after = assignee before /\
       dueDate after = dueDate before /\ tags after = tags before) /\
  (forall before w1,
     normalizeTask task w = (Normal before, w1) ->
     exists after,
       normalizeTask (patched task s) w' = (Normal after, tick w')) /\
  (forall e w2,
     normalizeTask (patched task s) w' = (Throw e, w2) ->
     normalizeTask task w = (Throw e, w)).
Proof.
  intros Hs.
  assert (forall g, g <> "status" -> field (patched task s) g = field task g)
    as Hother.
  { intros g Hg. apply field_insert_ne. congruence. }
  assert (printable (patched task s)
          = negb (unprintable (field task "_id"))
            && negb (unprintable (field task "priority" ||| VString ""))
            && negb (tags_unprintable task)) as Hpatched.
  { unfold printable, tags_unprintable.
    rewrite (Hother "_id"), (Hother "priority"), (Hother "tags")
      by discriminate.
    unfold patched. rewrite field_insert_eq, unprintable_strings.
    cbn [negb]. now rewrite andb_true_r. }
  assert (printable task = true -> printable (patched task s) = true)
    as Hkept.
  { rewrite Hpatched. unfold printable. intros H.
    apply andb_true_iff in H as [H Ht].
    apply andb_true_iff in H as [H Hp].
    apply andb_true_iff in H as [Hi _].
    now rewrite Hi, Hp, Ht. }
  split; [|split].
  - intros after w2 Hafter.
    apply normalizeTask_returned in Hafter as (_ & -> & ->).
    split; [|split; [reflexivity|]].
    + cbn [status normalized]. unfold status_value, patched.
      rewrite status_key_insert. now apply enumerated_round_trip.
    + intros before w1 Hbefore.
      apply normalizeTask_returned in Hbefore as (_ & -> & _).
      cbn [id title description priority assignee tags dueDate normalized].
      unfold resolveTitle, resolveDescription, priority_value, priority_key,
        resolveAssignee, expected_dueDate, tags_value.
      rewrite (Hother "_id"), (Hother "title"), (Hother "name"),
        (Hother "task_name"), (Hother "desc"), (Hother "description"),
        (Hother "priority"), (Hother "assignee"), (Hother "owner"),
        (Hother "member"), (Hother "due"), (Hother "due_date"),
        (Hother "deadline"), (Hother "tags") by discriminate.
      repeat split.
  - intros before w1 Hbefore.
    apply normalizeTask_returned in Hbefore as (Hprintable & _ & _).
    eexists. apply normalizeTask_returns. now apply Hkept.
  - intros e w2. rewrite !normalizeTask_run.
    destruct (printable (patched task s)) eqn:Hp; [discriminate|].
    intros [= <- <-].
    destruct (printable task) eqn:Ht; [|reflexivity].
    specialize (Hkept eq_refl). discriminate.
Qed.

Lemma patched_status_is_echoed_witness :
  exists before after,
    normalizeTask (engine := IsoDate.engine)
      (doc [("task_name", VString "Schema Design Review");
            ("status", VString "todo")]) sample_world
      = (Normal before, tick sample_world) /\
    normalizeTask (engine := IsoDate.engine)
      (patched (doc [("task_name", VString "Schema Design Review");
                     ("status", VString "todo")]) "DONE") (tick sample_world)
      = (Normal after, tick (tick sample_world)) /\
    status after = VString "DONE" /\ title after = title before.
Proof.
  destruct (patched_status_is_echoed (engine := IsoDate.engine)
              (doc [("task_name", VString "Schema Design Review");
                    ("status", VString "todo")]) "DONE"
              sample_world (tick sample_world))
    as (Hafter & Hreturns & _).
  - simpl. tauto.
  - destruct (Hreturns
                (normalized (engine := IsoDate.engine)
                   (doc [("task_name", VString "Schema Design Review");
                         ("status", VString "todo")])
                   (clock sample_world (reads sample_world)))
                (tick sample_world))
      as [after Hrun].
    { apply normalizeTask_returns. reflexivity. }
    destruct (Hafter after _ Hrun) as (Hstatus & _ & Hsame).
    destruct (Hsame
                (normalized (engine := IsoDate.engine)
                   (doc [("task_name", VString "Schema Design Review");
                         ("status", VString "todo")])
                   (clock sample_world (reads sample_world)))
                (tick sample_world))
      as (_ & Htitle & _).
    { apply normalizeTask_returns. reflexivity. }
    eexists _, after. split; [|split; [exact Hrun|split; [exact Hstatus|]]].
    + apply normalizeTask_returns. reflexivity.
    + exact Htitle.
Defined.

(** * The error handler *)

(** X13.  An error made by [createError] with a non-zero status code and a
    non-empty message is answered with that status and that message, in any
    environment: the body says [success: false], [error] is the message and
    [code] the status. *)
Theorem created_error_is_reported
    (NODE_ENV : option string) (trace msg : string) (status_code : Z)
    (extra : value) (req : Request) :
  status_code <> 0 -> msg <> "" ->
  let reply :=
    globalErrorHandler NODE_ENV (createError trace status_code msg extra) req in
  reply_status reply = VNumber status_code /\
  body_get (reply_body reply) "success" = VBool false /\
  body_get (reply_body reply) "error" = VString msg /\
  body_get (reply_body reply) "code" = VNumber status_code.
Proof.
  intros Hcode Hmsg reply. subst reply.
  unfold globalErrorHandler, createError.
  cbn [statusCode code message details stack reply_status reply_body].
  assert (forall b, VNumber status_code ||| b = VNumber status_code) as Hs.
  { intros b. apply js_or_truthy. simpl. now apply negb_true_iff, Z.eqb_neq. }
  assert (VString msg ||| VString "Internal Server Error" = VString msg) as Hm.
  { apply js_or_truthy. now apply truthy_VString. }
  rewrite !Hs, Hm. repeat split.
Qed.

Lemma created_error_is_reported_witness :
  reply_status
    (globalErrorHandler (Some "production")
       (createError "Error: Task not found" 404 "Task not found" VUndefined)
       {| method := "GET"; path := "/api/tasks/42" |})
  = VNumber 404.
Proof.
  apply (created_error_is_reported (Some "production")
           "Error: Task not found" "Task not found" 404 VUndefined
           {| method := "GET"; path := "/api/tasks/42" |});
    discriminate.
Defined.

(** X14.  Outside development nothing of the error but its message leaves
    the server: the body has the three keys [success], [error] and [code]
    only (no [details], no [stack]), and the log is a line of text, not the
    error object. *)
Theorem production_reply_hides_details
    (NODE_ENV : option string) (err : AppError) (req : Request) :
  NODE_ENV <> Some "development" ->
  let reply := globalErrorHandler NODE_ENV err req in
  List.map fst (reply_body reply) = ["success"; "error"; "code"] /\
  reply_log reply
    = LogText ("[ERROR] " +:+ method req +:+ " " +:+ path req +:+ ": "
               +:+ (if String.eqb (message err) ""
                    then "Internal Server Error" else message err)).
Proof.
  intros Henv reply. subst reply. unfold globalErrorHandler.
  assert (match NODE_ENV with
          | Some env => String.eqb env "development"
          | None => false
          end = false) as ->.
  { destruct NODE_ENV as [env|]; [|reflexivity].
    apply String.eqb_neq. congruence. }
  cbn [reply_body reply_log andb]. split; [reflexivity|].
  do 2 f_equal. unfold js_or. simpl.
  now destruct (String.eqb (message err) "").
Qed.

Lemma production_reply_hides_details_witness :
  List.map fst
    (reply_body
       (globalErrorHandler None
          {| message := "E11000 duplicate key";
             statusCode := VUndefined; code := VNumber 11000;
             details := VObject [("keyValue", VString "a@kizuna.com")];
             stack := VString "MongoServerError: E11000" |}
          {| method := "POST"; path := "/api/users" |}))
  = ["success"; "error"; "code"].
Proof.
  apply (production_reply_hides_details None
           {| message := "E11000 duplicate key";
              statusCode := VUndefined; code := VNumber 11000;
              details := VObject [("keyValue", VString "a@kizuna.com")];
              stack := VString "MongoServerError: E11000" |}
           {| method := "POST"; path := "/api/users" |}).
  discriminate.
Defined.

(** X15.  Whatever the error, [globalErrorHandler] sends a truthy status,
    the first truthy of [statusCode] and [code] and else 500; the [code] of
    the body is the status sent, [success] is [false], and [error] is a
    non-empty message, "Internal Server Error" when the error has none. *)
Theorem error_reply_is_well_formed
    (NODE_ENV : option string) (err : AppError) (req : Request) :
  let reply := globalErrorHandler NODE_ENV err req in
  truthy (reply_status reply) = true /\
  reply_status reply
    = default (VNumber 500) (List.find truthy [statusCode err; code err]) /\
  body_get (reply_body reply) "code" = reply_status reply /\
  body_get (reply_body reply) "success" = VBool false /\
  body_get (reply_body reply) "error"
    = VString (if String.eqb (message err) ""
               then "Internal Server Error" else message err).
Proof.
  intros reply. subst reply. unfold globalErrorHandler.
  cbn [reply_status reply_body]. repeat split.
  - now apply truthy_or_default.
  - unfold js_or. simpl.
    destruct (truthy (statusCode err)) eqn:E1; [now rewrite E1|].
    now destruct (truthy (code err)).
  - unfold js_or. simpl. unfold body_get. simpl.
    now destruct (String.eqb (message err) "").
Qed.

(** * The board *)

Lemma strict_equal_string v s :
  strict_equal v (VString s) = true <-> v = VString s.
Proof.
  destruct v; simpl; try (split; [discriminate | discriminate]).
  split.
  - intros H. apply String.eqb_eq in H. now subst.
  - intros [= ->]. apply String.eqb_refl.
Qed.

(** X16.  The four columns show the tasks whose status is one of TODO,
    IN_PROGRESS, REVIEW, DONE, each in the column of its status and in no
    other; when every status is one of the four, the columns together are a
    rearrangement of the tasks, none lost and none shown twice.  A task with
    any other status is in no column. *)
Theorem columns_partition_the_tasks (tasks : list NormalizedTask) :
  (forall t s,
     In t (tasksByCol tasks s) <-> In t tasks /\ status t = VString s) /\
  (forall t s, In s COLUMNS -> In t (tasksByCol tasks s) ->
     In (status t) TaskStatus) /\
  (Forall (fun t => In (status t) TaskStatus) tasks ->
   Permutation
     (tasksByCol tasks "TODO" ++ tasksByCol tasks "IN_PROGRESS"
      ++ tasksByCol tasks "REVIEW" ++ tasksByCol tasks "DONE")
     tasks).
Proof.
  assert (forall t s,
            In t (tasksByCol tasks s) <-> In t tasks /\ status t = VString s)
    as Hin.
  { intros t s. unfold tasksByCol. rewrite List.filter_In.
    now rewrite strict_equal_string. }
  split; [exact Hin|]. split.
  - intros t s Hs Ht. apply Hin in Ht as [_ ->].
    simpl in Hs. simpl. intuition congruence.
  - clear Hin. induction 1 as [|t ts Ht _ IH]; [constructor|].
    unfold tasksByCol in *. cbn [List.filter].
    simpl in Ht. destruct Ht as [Ht | [Ht | [Ht | [Ht | []]]]];
      rewrite <- Ht; cbn.
    + apply perm_skip, IH.
    + rewrite <- Permutation_middle. apply perm_skip, IH.
    + rewrite app_assoc, <- Permutation_middle, <- app_assoc.
      apply perm_skip, IH.
    + rewrite !app_assoc, <- Permutation_middle, <- !app_assoc.
      apply perm_skip, IH.
Qed.

Lemma moved_ids (tasks : list NormalizedTask) active target :
  List.map id (move_card active target tasks) = List.map id tasks.
Proof.
  unfold move_card. induction tasks as [|t ts IH]; [reflexivity|].
  cbn [List.map]. rewrite IH. now destruct (String.eqb (id t) active).
Qed.

(** The drop target of [handleDragEnd] on a column, or on a card with a
    truthy status. *)
Lemma drop_target_value (tasks : list NormalizedTask) over_id target :
  (In over_id COLUMNS /\ target = VString over_id) \/
  (~ In over_id COLUMNS /\ truthy target = true /\
   exists t, List.find (fun t => String.eqb (id t) over_id) tasks = Some t /\
             status t = target) ->
  (if existsb (String.eqb over_id) COLUMNS then VString over_id
   else or_null
          match List.find (fun t => String.eqb (id t) over_id) tasks with
          | Some t => status t
          | None => VUndefined
          end) = target /\
  truthy target = true.
Proof.
  intros [[Hcol ->] | (Hnot & Htruthy & t & Hfind & Hstatus)].
  - simpl in Hcol.
    destruct Hcol as [<- | [<- | [<- | [<- | []]]]]; split; reflexivity.
  - split; [|exact Htruthy].
    destruct (existsb (String.eqb over_id) COLUMNS) eqn:Hcol.
    + apply existsb_exists in Hcol as [c [Hc Heq]].
      apply String.eqb_eq in Heq. subst c. contradiction.
    + rewrite Hfind, Hstatus. destruct target; try reflexivity; discriminate.
Qed.

(** The drop target of [handleDragEnd], when it is truthy: the column
    dropped on, or the status of the task dropped on. *)
Lemma drop_target_cases (tasks : list NormalizedTask) over_id target :
  target
    = (if existsb (String.eqb over_id) COLUMNS then VString over_id
       else or_null
              match List.find (fun t => String.eqb (id t) over_id) tasks with
              | Some t => status t
              | None => VUndefined
              end) ->
  truthy target = true ->
  (In over_id COLUMNS /\ target = VString over_id) \/
  (exists t, In t tasks /\ id t = over_id /\ target = status t).
Proof.
  intros -> Htruthy.
  destruct (existsb (String.eqb over_id) COLUMNS) eqn:Hcol.
  - left. split; [|reflexivity].
    apply existsb_exists in Hcol as [c [Hc Heq]].
    apply String.eqb_eq in Heq. now subst.
  - right. destruct (List.find _ tasks) as [t|] eqn:Hfind; [|discriminate].
    apply find_some in Hfind as [Hin Hid]. apply String.eqb_eq in Hid.
    exists t. repeat split; auto.
    destruct (status t); simpl in *; congruence.
Qed.

(** X17.  Dropping a card on nothing or on itself sends no request and
    leaves the board alone, and so does dragging a card the board does not
    hold.  Dropping a card of the board on a column, or on another card
    whose status is truthy, when that status is not the card's own, sends
    [updateTaskStatus] for the dragged card with that status and gives every
    card with the dragged id that status, leaving the other cards, the order
    and the ids as they were.  That is the board when the request is
    accepted, and when it is rejected and the tasks cannot be fetched again;
    when they can, the board is the server's list. *)
Theorem handleDragEnd_moves_the_dragged_card
    (tasks latest : list NormalizedTask) (active : string) :
  (forall over outcome,
     over = None \/ over = Some active \/
     List.find (fun t => String.eqb (id t) active) tasks = None ->
     handleDragEnd tasks active over = (tasks, None) /\
     handleDragEnd_settled tasks latest active over outcome = latest) /\
  (forall over_id dragged target,
     active <> over_id ->
     List.find (fun t => String.eqb (id t) active) tasks = Some dragged ->
     (In over_id COLUMNS /\ target = VString over_id) \/
     (~ In over_id COLUMNS /\ truthy target = true /\
      exists t,
        List.find (fun t => String.eqb (id t) over_id) tasks = Some t /\
        status t = target) ->
     strict_equal (status dragged) target = false ->
     handleDragEnd tasks active (Some over_id)
       = (move_card active target tasks, Some (active, target)) /\
     handleDragEnd_settled tasks latest active (Some over_id) Accepted
       = move_card active target latest /\
     handleDragEnd_settled tasks latest active (Some over_id) (Rejected None)
       = move_card active target latest /\
     (forall server_tasks,
        handleDragEnd_settled tasks latest active (Some over_id)
          (Rejected (Some server_tasks)) = server_tasks)) /\
  (forall target,
     List.map id (move_card active target latest) = List.map id latest /\
     (forall i t, latest !! i = Some t ->
        move_card active target latest !! i
        = Some (if String.eqb (id t) active
                then with_status t target else t)) /\
     (forall t, In t (move_card active target latest) ->
        id t = active -> status t = target)).
Proof.
  split; [|split].
  - intros over outcome Hcase.
    assert (handleDragEnd tasks active over = (tasks, None)) as Hrun.
    { unfold handleDragEnd. destruct Hcase as [-> | [-> | Hfind]].
      - reflexivity.
      - now rewrite String.eqb_refl.
      - destruct over as [over_id|]; [|reflexivity].
        destruct (String.eqb active over_id); [reflexivity|].
        destruct (negb (truthy _)); [reflexivity|].
        now rewrite Hfind. }
    split; [exact Hrun|]. unfold handleDragEnd_settled. now rewrite Hrun.
  - intros over_id dragged target Hother Hfind Hdrop Hmoves.
    assert (handleDragEnd tasks active (Some over_id)
            = (move_card active target tasks, Some (active, target))) as Hrun.
    { unfold handleDragEnd.
      apply String.eqb_neq in Hother. rewrite Hother.
      destruct (drop_target_value tasks over_id target Hdrop)
        as [-> Htruthy].
      rewrite Htruthy. cbn [negb]. now rewrite Hfind, Hmoves. }
    split; [exact Hrun|]. unfold handleDragEnd_settled. rewrite Hrun.
    repeat split.
  - intros target. split; [apply moved_ids|]. split.
    + intros i t Hi. unfold move_card.
      now rewrite list_lookup_fmap, Hi.
    + intros t Ht Hactive. unfold move_card in Ht.
      apply List.in_map_iff in Ht as [t0 [<- _]].
      destruct (String.eqb (id t0) active) eqn:E; [reflexivity|].
      apply String.eqb_neq in E. contradiction.
Qed.

Lemma handleDragEnd_moves_the_dragged_card_witness :
  handleDragEnd
    [normalized (engine := IsoDate.engine)
       (doc [("_id", VString "a1"); ("status", VString "todo")]) 0;
     normalized (engine := IsoDate.engine)
       (doc [("_id", VString "b2"); ("status", VString "done")]) 0]
    "a1" (Some "b2")
  = (move_card "a1" (VString "DONE")
       [normalized (engine := IsoDate.engine)
          (doc [("_id", VString "a1"); ("status", VString "todo")]) 0;
        normalized (engine := IsoDate.engine)
          (doc [("_id", VString "b2"); ("status", VString "done")]) 0],
     Some ("a1", VString "DONE")).
Proof.
  destruct (handleDragEnd_moves_the_dragged_card
              [normalized (engine := IsoDate.engine)
                 (doc [("_id", VString "a1"); ("status", VString "todo")]) 0;
               normalized (engine := IsoDate.engine)
                 (doc [("_id", VString "b2"); ("status", VString "done")]) 0]
              [] "a1")
    as (_ & Hmove & _).
  apply (Hmove "b2"
           (normalized (engine := IsoDate.engine)
              (doc [("_id", VString "a1"); ("status", VString "todo")]) 0)
           (VString "DONE")).
  - discriminate.
  - reflexivity.
  - right. split; [|split; [reflexivity|]].
    + simpl. intuition discriminate.
    + exists (normalized (engine := IsoDate.engine)
                (doc [("_id", VString "b2"); ("status", VString "done")]) 0).
      split; reflexivity.
  - reflexivity.
Defined.

(** X18.  Dragging keeps the board within the enumeration: when every task
    has one of the four statuses, so does every task after the drag, and the
    status requested, if any, is one of the four, which is what
    [PATCH /api/tasks/:id] accepts. *)
Theorem handleDragEnd_keeps_statuses_enumerated
    (tasks : list NormalizedTask) (active : string) (over : option string) :
  Forall (fun t => In (status t) TaskStatus) tasks ->
  Forall (fun t => In (status t) TaskStatus)
         (fst (handleDragEnd tasks active over)) /\
  (forall i target, snd (handleDragEnd tasks active over) = Some (i, target) ->
     In target TaskStatus).
Proof.
  intros Hall. unfold handleDragEnd.
  destruct over as [over_id|]; [|split; [exact Hall | discriminate]].
  destruct (String.eqb active over_id); [split; [exact Hall | discriminate]|].
  remember (if existsb (String.eqb over_id) COLUMNS then VString over_id
            else or_null _) as target eqn:Htarget.
  destruct (truthy target) eqn:Htruthy;
    [|split; [exact Hall | discriminate]]. cbn [negb].
  assert (In target TaskStatus) as Henum.
  { destruct (drop_target_cases tasks over_id target Htarget Htruthy)
      as [[Hcol ->] | [t [Hin [_ ->]]]].
    - simpl in Hcol. simpl. intuition congruence.
    - rewrite List.Forall_forall in Hall. now apply Hall. }
  destruct (List.find (fun t => String.eqb (id t) active) tasks)
    as [dragged|]; [|split; [exact Hall | discriminate]].
  destruct (strict_equal (status dragged) target);
    [split; [exact Hall | discriminate]|].
  cbn [fst snd]. split.
  - apply List.Forall_forall. intros t Ht. unfold move_card in Ht.
    apply List.in_map_iff in Ht as [t0 [<- Ht0]].
    destruct (String.eqb (id t0) active); [exact Henum|].
    rewrite List.Forall_forall in Hall. now apply Hall.
  - now intros i target' [= _ <-].
Qed.

Lemma handleDragEnd_keeps_statuses_enumerated_witness :
  Forall (fun t => In (status t) TaskStatus)
    (fst (handleDragEnd
            [normalized (engine := IsoDate.engine)
               (doc [("_id", VString "a1"); ("status", VString "todo")]) 0;
             normalized (engine := IsoDate.engine)
               (doc [("_id", VString "b2"); ("status", VString "done")]) 0]
            "a1" (Some "b2"))).
Proof.
  apply (handleDragEnd_keeps_statuses_enumerated
           [normalized (engine := IsoDate.engine)
              (doc [("_id", VString "a1"); ("status", VString "todo")]) 0;
            normalized (engine := IsoDate.engine)
              (doc [("_id", VString "b2"); ("status", VString "done")]) 0]
           "a1" (Some "b2")).
  repeat (apply List.Forall_cons; [vm_compute; tauto|]). apply List.Forall_nil.
Defined.
